(** * Hunt lifecycle of the Velociraptor server: [flows/hunts.go]

    A shallow embedding of [GetNewHuntId], [GetArtifactSources],
    [CreateHunt], [ListHunts] and [ModifyHunt], with the properties of the
    hunt subsystem stated and proved (or refuted) over it.

    Go values are modelled as follows.
    - [uint64] / [int64] are [Z] with the wrap-around written out
      ([uint64], [int64]).
    - a slice is [option (list A)]: [None] is the nil slice, [Some []] an
      allocated slice of length zero.
    - a pointer that may be nil is an [option].
    - an [error] result is [option error], [None] being [nil].
    - a function with early [return]s that mutates the record it was handed
      and talks to the outside world runs in the monad [Go], whose state
      is the pair of the pointed-to record and the [World]. *)

From Stdlib Require Import ZArith String Ascii List Lia.
From Stdlib Require Import Strings.Byte.
From Stdlib Require Import Sorting.Sorted Sorting.Permutation.
From stdpp Require Import base option list strings gmap.

Local Open Scope Z_scope.

(** ** Machine integers *)

Definition uint64 (z : Z) : Z := z mod 2 ^ 64.

Definition int64 (z : Z) : Z := (z + 2 ^ 63) mod 2 ^ 64 - 2 ^ 63.

(** ** Errors

    [constants.STOP_ITERATION] and [notModified] are package level error
    values that the code compares by identity; [errors.New] builds any
    other error from its message. *)

Inductive error : Type :=
| STOP_ITERATION
| notModified
| errors_New (msg : string).

Global Instance error_eq_dec : EqDecision error.
Proof. solve_decision. Defined.

(** What a call does: it returns a value, or the goroutine panics (a method
    called on a nil interface). *)

Inductive outcome (A : Type) : Type :=
| returns (a : A)
| panics.

Arguments returns {A} a.
Arguments panics {A}.

(** ** Slices *)

Definition slice (A : Type) : Type := option (list A).

Definition items {A} (s : slice A) : list A := default [] s.

Definition len {A} (s : slice A) : Z := Z.of_nat (length (items s)).

(** [append(s, xs...)]: the result is nil only when nothing is appended to a
    nil slice. *)
Definition append {A} (s : slice A) (xs : list A) : slice A :=
  match s, xs with
  | None, [] => None
  | _, _ => Some (items s ++ xs)
  end.

(** ** Protocol buffer messages ([api_proto], [flows_proto]) *)

Inductive Hunt_State : Type := UNSET | PAUSED | RUNNING | STOPPED | ARCHIVED.

Global Instance Hunt_State_eq_dec : EqDecision Hunt_State.
Proof. solve_decision. Defined.

Record HuntStats : Type := mkHuntStats {
  Stopped : bool
}.

Inductive VQLCollectorArgs : Type := compiled_query (vql : string).

Record ArtifactCollectorArgs : Type := mkArtifactCollectorArgs {
  Artifacts : slice string;
  CompiledCollectorArgs : slice VQLCollectorArgs
}.

Record Hunt : Type := mkHunt {
  HuntId : string;
  HuntDescription : string;
  State : Hunt_State;
  CreateTime : Z;
  StartTime : Z;
  Expires : Z;
  StartRequest : option ArtifactCollectorArgs;
  HuntArtifacts : slice string;
  ArtifactSources : slice string;
  Stats : option HuntStats
}.

Definition set_HuntId (v : string) (h : Hunt) : Hunt :=
  mkHunt v (HuntDescription h) (State h) (CreateTime h) (StartTime h)
    (Expires h) (StartRequest h) (HuntArtifacts h) (ArtifactSources h) (Stats h).

Definition set_HuntDescription (v : string) (h : Hunt) : Hunt :=
  mkHunt (HuntId h) v (State h) (CreateTime h) (StartTime h)
    (Expires h) (StartRequest h) (HuntArtifacts h) (ArtifactSources h) (Stats h).

Definition set_State (v : Hunt_State) (h : Hunt) : Hunt :=
  mkHunt (HuntId h) (HuntDescription h) v (CreateTime h) (StartTime h)
    (Expires h) (StartRequest h) (HuntArtifacts h) (ArtifactSources h) (Stats h).

Definition set_CreateTime (v : Z) (h : Hunt) : Hunt :=
  mkHunt (HuntId h) (HuntDescription h) (State h) v (StartTime h)
    (Expires h) (StartRequest h) (HuntArtifacts h) (ArtifactSources h) (Stats h).

Definition set_StartTime (v : Z) (h : Hunt) : Hunt :=
  mkHunt (HuntId h) (HuntDescription h) (State h) (CreateTime h) v
    (Expires h) (StartRequest h) (HuntArtifacts h) (ArtifactSources h) (Stats h).

Definition set_Expires (v : Z) (h : Hunt) : Hunt :=
  mkHunt (HuntId h) (HuntDescription h) (State h) (CreateTime h) (StartTime h)
    v (StartRequest h) (HuntArtifacts h) (ArtifactSources h) (Stats h).

Definition set_StartRequest (v : option ArtifactCollectorArgs) (h : Hunt) : Hunt :=
  mkHunt (HuntId h) (HuntDescription h) (State h) (CreateTime h) (StartTime h)
    (Expires h) v (HuntArtifacts h) (ArtifactSources h) (Stats h).

Definition set_HuntArtifacts (v : slice string) (h : Hunt) : Hunt :=
  mkHunt (HuntId h) (HuntDescription h) (State h) (CreateTime h) (StartTime h)
    (Expires h) (StartRequest h) v (ArtifactSources h) (Stats h).

Definition set_ArtifactSources (v : slice string) (h : Hunt) : Hunt :=
  mkHunt (HuntId h) (HuntDescription h) (State h) (CreateTime h) (StartTime h)
    (Expires h) (StartRequest h) (HuntArtifacts h) v (Stats h).

Definition set_Stats (v : option HuntStats) (h : Hunt) : Hunt :=
  mkHunt (HuntId h) (HuntDescription h) (State h) (CreateTime h) (StartTime h)
    (Expires h) (StartRequest h) (HuntArtifacts h) (ArtifactSources h) v.

Record ListHuntsRequest : Type := mkListHuntsRequest {
  Offset : Z;
  Count : Z;
  IncludeArchived : bool
}.

Record ListHuntsResponse : Type := mkListHuntsResponse {
  Items : slice Hunt
}.

(** An artifact definition of the repository, as far as the code reads it. *)

Record ArtifactSource : Type := mkArtifactSource { Name : string }.

Record Artifact : Type := mkArtifact { Sources : list ArtifactSource }.

(** A row pushed to the journal when a hunt is archived. *)

Record JournalRow : Type := mkJournalRow {
  row_Timestamp : Z;
  row_Hunt : Hunt;
  row_User : string;
  row_artifact : string;
  row_client : string;
  row_flow : string
}.

(** ** The hunt dispatcher

    The dispatcher holds the in-memory mirror, a Go map from hunt id to
    hunt. *)

Record HuntDispatcher : Type := mkHuntDispatcher {
  hunts : gmap string Hunt
}.

(** ** The outside world

    [Env] fixes what the collaborators answer during one call: the
    services of packages [services], [datastore] and [paths], the clock,
    and the order in which the Go runtime ranges over the mirror.  [World]
    is everything a call can change besides the record it was handed. *)

Record Env : Type := mkEnv {
  HUNT_PREFIX : string;
  Now : nat -> Z;
  GetDB : option error;
  SetSubject : string -> Hunt -> option error;
  HuntPath : string -> string;
  GetRepositoryManager : option error;
  GetGlobalRepository : option error;
  repository_Get : string -> option Artifact;
  path_Join : string -> string -> string;
  GetLauncher : option error;
  CompileCollectorArgs :
    ArtifactCollectorArgs -> list VQLCollectorArgs * option error;
  GetNotifier : bool;
  NotifyByRegex : string -> option error;
  Refresh : option error;
  GetJournal : option error;
  PushRowsToArtifact : list JournalRow -> option error;
  range_hunts : gmap string Hunt -> list Hunt
}.

Record World : Type := mkWorld {
  entropy : list byte;
  ticks : nat;
  dispatcher : option HuntDispatcher;
  writes : list (string * Hunt);
  notifications : list string;
  refreshes : nat;
  journal : list JournalRow
}.

Definition set_entropy (v : list byte) (w : World) : World :=
  mkWorld v (ticks w) (dispatcher w) (writes w) (notifications w)
    (refreshes w) (journal w).

Definition set_ticks (v : nat) (w : World) : World :=
  mkWorld (entropy w) v (dispatcher w) (writes w) (notifications w)
    (refreshes w) (journal w).

Definition set_dispatcher (v : option HuntDispatcher) (w : World) : World :=
  mkWorld (entropy w) (ticks w) v (writes w) (notifications w)
    (refreshes w) (journal w).

Definition set_writes (v : list (string * Hunt)) (w : World) : World :=
  mkWorld (entropy w) (ticks w) (dispatcher w) v (notifications w)
    (refreshes w) (journal w).

Definition set_notifications (v : list string) (w : World) : World :=
  mkWorld (entropy w) (ticks w) (dispatcher w) (writes w) v
    (refreshes w) (journal w).

Definition set_refreshes (v : nat) (w : World) : World :=
  mkWorld (entropy w) (ticks w) (dispatcher w) (writes w) (notifications w)
    v (journal w).

Definition set_journal (v : list JournalRow) (w : World) : World :=
  mkWorld (entropy w) (ticks w) (dispatcher w) (writes w) (notifications w)
    (refreshes w) v.

(** ** The monad of Go function bodies

    A computation of [Go S R A] runs on a state [S] and either goes on
    with a value of [A] or has executed a [return] statement with the
    function's result [R]; the state reached so far is kept in both
    cases. *)

Definition Go (S R A : Type) : Type := S -> (A + R) * S.

Global Instance Go_ret {S R} : MRet (Go S R) :=
  fun A (a : A) s => (inl a, s).

Global Instance Go_bind {S R} : MBind (Go S R) :=
  fun A B (k : A -> Go S R B) (c : Go S R A) s =>
    match c s with
    | (inl a, s') => k a s'
    | (inr r, s') => (inr r, s')
    end.

Section GoOps.
Context {S R : Type}.

Definition Return {A} (r : R) : Go S R A := fun s => (inr r, s).

Definition gets {A} (f : S -> A) : Go S R A := fun s => (inl (f s), s).

Definition modify (f : S -> S) : Go S R unit := fun s => (inl tt, f s).

(** A call that changes the state and hands back a value. *)
Definition act {A} (f : S -> A * S) : Go S R A :=
  fun s => let '(a, s') := f s in (inl a, s').

Definition when (b : bool) (c : Go S R unit) : Go S R unit :=
  if b then c else mret tt.

(** Running a whole function body: falling off the end with [r] and
    [return r] are the same thing. *)
Definition run (c : Go S R R) (s : S) : R * S :=
  match c s with
  | (inl r, s') => (r, s')
  | (inr r, s') => (r, s')
  end.
End GoOps.

(** Functions of this file work on the record behind their pointer
    argument and on the world. *)

Section HuntOps.
Context {R : Type}.

Definition field {A} (f : Hunt -> A) : Go (Hunt * World) R A :=
  gets (fun s => f (fst s)).

Definition assign (f : Hunt -> Hunt) : Go (Hunt * World) R unit :=
  modify (fun s => (f (fst s), snd s)).

Definition world {A} (f : World -> A * World) : Go (Hunt * World) R A :=
  fun s => let '(a, w) := f (snd s) in (inl a, (fst s, w)).
End HuntOps.

(** ** Collaborators, as the world sees them *)

(** [time.Now()], as the [UnixNano] reading of the clock. *)
Definition time_Now (env : Env) (w : World) : Z * World :=
  (int64 (Now env (ticks w)), set_ticks (S (ticks w)) w).

(** [time.Now().UTC().Unix()]: the whole seconds of the same clock.  The
    seconds are counted from the instant itself, not from its [UnixNano]
    reading, so they do not wrap where the nanoseconds do. *)
Definition time_Now_Unix (env : Env) (w : World) : Z * World :=
  (int64 (Now env (ticks w) `div` 1000000000), set_ticks (S (ticks w)) w).

(** [rand.Read(buf)] of [crypto/rand]: fills [buf] from the entropy source;
    when the source runs dry the rest of [buf] keeps its bytes (the code
    drops the error). *)
Definition rand_Read (buf : list byte) (w : World) : list byte * World :=
  let got := take (length buf) (entropy w) in
  (got ++ drop (length got) buf,
   set_entropy (drop (length buf) (entropy w)) w).

(** [db.SetSubject(config_obj, path, hunt)]: every call is recorded in
    [writes], whatever the data store answers. *)
Definition db_SetSubject (env : Env) (path : string) (hunt : Hunt) (w : World)
  : option error * World :=
  (SetSubject env path hunt, set_writes ((path, hunt) :: writes w) w).

Definition notifier_NotifyByRegex (env : Env) (re : string) (w : World)
  : option error * World :=
  (NotifyByRegex env re, set_notifications (re :: notifications w) w).

Definition journal_PushRowsToArtifact (env : Env) (rows : list JournalRow)
  (w : World) : option error * World :=
  (PushRowsToArtifact env rows, set_journal (journal w ++ rows) w).

(** The hunt records of the data store, by hunt id, as a reload finds
    them: what the mirror [d] held, with every record that the store has
    accepted since laid over it, the latest write of a hunt last.
    [writes] has the latest call first. *)
Definition HuntStore_hunts (env : Env) (d : HuntDispatcher) (w : World)
  : gmap string Hunt :=
  foldr (fun '(path, hunt) m =>
           match SetSubject env path hunt with
           | None => <[HuntId hunt := hunt]> m
           | Some _ => m
           end)
    (hunts d) (writes w).

(** Modelled from the spec: [HuntDispatcher.Refresh] is not among the
    sources.  It reloads the mirror from the data store and publishes the
    new snapshot at once; a refresh that fails is reported and leaves the
    mirror as it was.  Every call is counted. *)
Definition dispatcher_Refresh (env : Env) (w : World) : option error * World :=
  let w1 := set_refreshes (S (refreshes w)) w in
  match Refresh env with
  | Some e => (Some e, w1)
  | None =>
      (None,
       set_dispatcher
         ((fun d => mkHuntDispatcher (HuntStore_hunts env d w))
            <$> dispatcher w) w1)
  end.

(** ** [encoding/hex] *)

Definition hextable : list byte :=
  list_byte_of_string "0123456789abcdef".

Definition hex_digit (n : N) : byte := nth (N.to_nat n) hextable x00.

Fixpoint hex_encoded (src : list byte) : list byte :=
  match src with
  | [] => []
  | v :: src' =>
      hex_digit (N.shiftr (Byte.to_N v) 4)
      :: hex_digit (N.land (Byte.to_N v) 15)
      :: hex_encoded src'
  end.

(** [hex.Encode(dst, src)] writes the digits over the front of [dst]. *)
Definition hex_Encode (dst src : list byte) : list byte :=
  let e := hex_encoded src in e ++ drop (length e) dst.

(** [make([]byte, n)] *)
Definition make (n : nat) : list byte := repeat x00 n.

(** ** [GetNewHuntId] *)

Definition GetNewHuntId (env : Env) (w : World) : string * World :=
  let result := make 8 in
  let buf := make 4 in
  let '(buf, w) := rand_Read buf w in
  let result := hex_Encode result buf in
  (HUNT_PREFIX env +:+ string_of_list_byte result, w).

(** ** [GetArtifactSources] *)

Definition GetArtifactSources (env : Env) (artifact : string) : slice string :=
  let result : slice string := Some [] in
  match GetRepositoryManager env with
  | Some _ => None
  | None =>
      match GetGlobalRepository env with
      | None =>
          match repository_Get env artifact with
          | Some artifact_obj =>
              fold_left (fun result source => append result [Name source])
                (Sources artifact_obj) result
          | None => result
          end
      | Some _ => result
      end
  end.

(** ** Statements shared by the function bodies *)

Definition is_nil {A} (p : option A) : bool :=
  match p with None => true | Some _ => false end.

Section Statements.
Context {S A : Type}.

(** [if err != nil { return s, err }], [s] being the empty string. *)
Definition return_err (err : option error)
  : Go S (outcome (string * option error)) unit :=
  match err with
  | Some e => Return (returns (EmptyString, Some e))
  | None => mret tt
  end.

(** Reading through a pointer: a nil pointer panics. *)
Definition deref {R} (p : option A) : Go S (outcome R) A :=
  match p with
  | Some a => mret a
  | None => Return panics
  end.

(** Calling a function that may panic: the panic goes up. *)
Definition call {R} (f : S -> outcome A * S) : Go S (outcome R) A :=
  fun s =>
    match f s with
    | (returns a, s') => (inl a, s')
    | (panics, s') => (inr panics, s')
    end.
End Statements.

(** [for _, x := range l { body }] *)
Fixpoint for_range {S R A} (l : list A) (body : A -> Go S R unit)
  : Go S R unit :=
  match l with
  | [] => mret tt
  | x :: l' => body x;; for_range l' body
  end.

(** ** [CreateHunt] *)

(** [7*24*time.Hour], in nanoseconds. *)
Definition week : Z := 7 * 24 * 3600000000000.

(** The nested loop that fills [hunt.ArtifactSources] from the artifacts of
    the start request. *)
Definition collect_sources {R} (env : Env) (artifacts : slice string)
  : Go (Hunt * World) R unit :=
  for_range (items artifacts) (fun artifact =>
    for_range (items (GetArtifactSources env artifact)) (fun source =>
      sources ← field ArtifactSources;
      assign (set_ArtifactSources
                (append sources [path_Join env artifact source])))).

Section CreateHuntBody.
Variable env : Env.

Let body (A : Type) : Type :=
  Go (Hunt * World) (outcome (string * option error)) A.

(** Lines 112-118: a missing [Stats] and a missing [HuntId] are filled
    in. *)
Definition CreateHunt_defaults : body unit :=
  stats ← field Stats;
  when (is_nil stats) (assign (set_Stats (Some (mkHuntStats false))));;

  id ← field HuntId;
  when (bool_decide (id = EmptyString))
    (id ← world (GetNewHuntId env); assign (set_HuntId id)).

(** Lines 120-122. *)
Definition CreateHunt_validate : body unit :=
  request ← field StartRequest;
  when (match request with
        | None => true
        | Some r => is_nil (Artifacts r)
        end)
    (Return (returns (EmptyString,
                      Some (errors_New "No artifacts to collect.")))).

(** Lines 124-132: creation time, default expiry, expiry check. *)
Definition CreateHunt_times : body unit :=
  now ← world (time_Now env);
  assign (set_CreateTime (uint64 (now ÷ 1000)));;
  expires ← field Expires;
  when (bool_decide (expires = 0))
    (now ← world (time_Now env);
     assign (set_Expires (uint64 (int64 (now + week) ÷ 1000))));;

  expires ← field Expires;
  created ← field CreateTime;
  when (bool_decide (expires < created))
    (Return (returns (EmptyString,
                      Some (errors_New "Hunt expiry is in the past!")))).

(** Lines 134-143: the artifacts information is set in the hunt object
    itself. *)
Definition CreateHunt_artifacts : body unit :=
  request ← field StartRequest;
  request ← deref request;
  assign (set_HuntArtifacts (Artifacts request));;
  assign (set_ArtifactSources (Some []));;
  collect_sources env (Artifacts request).

(** Lines 145-174: the start request is compiled and the compiled form
    is stored in the hunt. *)
Definition CreateHunt_compile : body unit :=
  return_err (GetRepositoryManager env);;
  return_err (GetGlobalRepository env);;
  return_err (GetLauncher env);;

  request ← field StartRequest;
  request ← deref request;
  let '(compiled, err) := CompileCollectorArgs env request in
  return_err err;;
  assign (set_StartRequest
            (Some (mkArtifactCollectorArgs (Artifacts request)
                     (append (CompiledCollectorArgs request) compiled)))).

(** Lines 176-194: the caller decides whether the hunt is created
    running or paused. *)
Definition CreateHunt_state : body unit :=
  state ← field State;
  if decide (state = UNSET) then
    assign (set_State PAUSED)
  else if decide (state = RUNNING) then
    created ← field CreateTime;
    assign (set_StartTime created);;
    when (GetNotifier env)
      (err ← world (notifier_NotifyByRegex env "^[Cc]\.");
       return_err err)
  else mret tt.

(** Lines 196-207: the record is written and the dispatcher is
    refreshed. *)
Definition CreateHunt_persist : body (outcome (string * option error)) :=
  id ← field HuntId;
  let hunt_path := HuntPath env id in
  hunt ← gets fst;
  err ← world (db_SetSubject env hunt_path hunt);
  return_err err;;

  d ← world (fun w => (dispatcher w, w));
  when (is_nil d) (Return panics);;
  err ← world (dispatcher_Refresh env);

  id ← field HuntId;
  Return (returns (id, err)).

(** The body of [CreateHunt], block after block. *)
Definition CreateHunt : body (outcome (string * option error)) :=
  return_err (GetDB env);;
  CreateHunt_defaults;;
  CreateHunt_validate;;
  CreateHunt_times;;
  CreateHunt_artifacts;;
  CreateHunt_compile;;
  CreateHunt_state;;
  CreateHunt_persist.
End CreateHuntBody.

(** ** [sort.Slice]

    The standard library sorts the slice in place with the given [less];
    it is not stable.  The model is an insertion sort: the theorems below
    use only that its result is sorted and is a permutation of its
    argument, which fixes the result whenever the keys are distinct. *)

Fixpoint insert_by {A} (less : A -> A -> bool) (x : A) (l : list A) : list A :=
  match l with
  | [] => [x]
  | y :: l' => if less x y then x :: y :: l' else y :: insert_by less x l'
  end.

Definition sorted_by {A} (less : A -> A -> bool) (l : list A) : list A :=
  foldr (insert_by less) [] l.

Definition sort_Slice {A} (s : slice A) (less : A -> A -> bool) : slice A :=
  sorted_by less <$> s.

(** ** The dispatcher's methods *)

Fixpoint range_until_error {S} (fn : Hunt -> S -> option error * S)
  (l : list Hunt) (s : S) : option error * S :=
  match l with
  | [] => (None, s)
  | hunt :: l' =>
      match fn hunt s with
      | (None, s') => range_until_error fn l' s'
      | (Some e, s') => (Some e, s')
      end
  end.

(** Modelled from the spec: [HuntDispatcher.ApplyFuncOnHunts] is not among
    the sources.  It iterates the mirror in an unspecified order (here the
    order [range_hunts] that the environment picks), invoking [fn] per
    hunt; [fn] returning the stop sentinel halts the iteration early
    without surfacing an error to the caller; any other error halts it and
    is returned.  [S] is the state the callback closes over. *)
Definition ApplyFuncOnHunts {S} (env : Env) (d : HuntDispatcher)
  (fn : Hunt -> S -> option error * S) (s : S) : option error * S :=
  let '(err, s') := range_until_error fn (range_hunts env (hunts d)) s in
  (if decide (err = Some STOP_ITERATION) then None else err, s').

(** Modelled from the spec: [HuntDispatcher.ModifyHunt] is not among the
    sources.  It looks the hunt up in the mirror (an unknown id is a
    not-found error, whose text the spec leaves open) and invokes the
    mutator on a copy that the mutator owns.  When the mutator returns the
    "not modified" sentinel, the mirror and the durable store are left
    untouched and the sentinel goes back to the caller; any other error
    aborts without persisting; [nil] has the mutated hunt written to the
    store and then committed to the mirror.  An error of the store is
    returned to the caller and nothing is committed: the mirror never
    holds what the store has not accepted. *)
Definition dispatcher_ModifyHunt (env : Env) (d : HuntDispatcher)
  (hunt_id : string)
  (mutator : Go (Hunt * World) (outcome (option error)) (outcome (option error)))
  (w : World) : outcome (option error) * World :=
  match hunts d !! hunt_id with
  | None => (returns (Some (errors_New "Hunt not found")), w)
  | Some hunt =>
      let '(res, (copy, w')) := run mutator (hunt, w) in
      match res with
      | panics => (panics, w')
      | returns (Some e) => (returns (Some e), w')
      | returns None =>
          let '(err, w'') := db_SetSubject env (HuntPath env hunt_id) copy w' in
          match err with
          | Some e => (returns (Some e), w'')
          | None =>
              (returns None,
               set_dispatcher
                 (Some (mkHuntDispatcher (<[hunt_id := copy]> (hunts d))))
                 w'')
          end
      end
  end.

(** ** [ListHunts] *)

Definition ListHunts_callback (in_ : ListHuntsRequest) (hunt : Hunt)
  : Go ListHuntsResponse (option error) (option error) :=
  result_Items ← gets Items;
  when (bool_decide (len result_Items < Offset in_)) (Return None);;

  result_Items ← gets Items;
  when (bool_decide (len result_Items >= uint64 (Offset in_ + Count in_)))
    (Return (Some STOP_ITERATION));;

  when (IncludeArchived in_ || negb (bool_decide (State hunt = ARCHIVED)))
    (modify (fun result => mkListHuntsResponse (append (Items result) [hunt])));;
  Return None.

Definition ListHunts (env : Env) (in_ : ListHuntsRequest) (w : World)
  : option ListHuntsResponse * option error :=
  let result := mkListHuntsResponse None in
  match dispatcher w with
  | None => (None, Some (errors_New "Hunt dispatcher not initialized"))
  | Some d =>
      let '(err, result) :=
        ApplyFuncOnHunts env d
          (fun hunt => run (ListHunts_callback in_ hunt)) result in
      let err := if decide (err = Some STOP_ITERATION) then None else err in
      let result :=
        mkListHuntsResponse
          (sort_Slice (Items result)
             (fun i j => bool_decide (CreateTime i > CreateTime j))) in
      (Some result, err)
  end.

(** ** [ModifyHunt] *)

Section MutatorStatements.
Context {S : Type}.

(** [if err != nil { return err }] *)
Definition return_if (err : option error)
  : Go S (outcome (option error)) unit :=
  match err with
  | Some e => Return (returns (Some e))
  | None => mret tt
  end.
End MutatorStatements.

(** The closure handed to the dispatcher. *)
Definition ModifyHunt_mutator (env : Env) (hunt_modification : Hunt)
  (user : string)
  : Go (Hunt * World) (outcome (option error)) (outcome (option error)) :=
  stats ← field Stats;
  when (is_nil stats) (Return (returns (Some (errors_New "Invalid hunt"))));;

  (if negb (bool_decide (HuntDescription hunt_modification = EmptyString)) then
     assign (set_HuntDescription (HuntDescription hunt_modification))

   else if decide (State hunt_modification = ARCHIVED) then
     assign (set_State ARCHIVED);;
     timestamp ← world (time_Now_Unix env);
     hunt ← gets fst;
     let row :=
       mkJournalRow timestamp hunt user
         "System.Hunt.Archive" "server" (HuntId hunt_modification) in
     return_if (GetJournal env);;
     err ← world (journal_PushRowsToArtifact env [row]);
     return_if err

   else if decide (State hunt_modification = RUNNING) then
     stats ← field Stats;
     stats ← deref stats;
     when (Stopped stats)
       (Return (returns (Some (errors_New "Can not start a stopped hunt."))));;
     assign (set_State RUNNING);;
     now ← world (time_Now env);
     assign (set_StartTime (uint64 (now ÷ 1000)))

   else
     assign (set_State STOPPED));;

  Return (returns None).

Definition ModifyHunt (env : Env) (hunt_modification : Hunt) (user : string)
  : Go World (outcome (option error)) (outcome (option error)) :=
  d ← gets dispatcher;
  d ← deref d;
  err ← call (dispatcher_ModifyHunt env d (HuntId hunt_modification)
                (ModifyHunt_mutator env hunt_modification user));
  return_if err;;

  when (negb (GetNotifier env))
    (Return (returns (Some (errors_New "Notifier not ready"))));;
  err ← act (notifier_NotifyByRegex env "^[Cc]\.");
  Return (returns err).

(** ** Reasoning about function bodies

    [wp c s Q E]: started in [s], the computation [c] either goes on with
    a value and a state in [Q], or returns early with a result and a state
    in [E]. *)

Definition wp {S R A} (c : Go S R A) (s : S)
  (Q : A -> S -> Prop) (E : R -> S -> Prop) : Prop :=
  match c s with
  | (inl a, s') => Q a s'
  | (inr r, s') => E r s'
  end.

(** ** [encoding/hex], decoding side (used to show that encoding loses
    nothing) *)

Fixpoint index_of (c : byte) (l : list byte) : nat :=
  match l with
  | [] => 0%nat
  | d :: l' => if Byte.eqb d c then 0%nat else S (index_of c l')
  end.

Definition unhex (c : byte) : N := N.of_nat (index_of c hextable).

Definition hex_decode_byte (hi lo : byte) : option byte :=
  Byte.of_N (16 * unhex hi + unhex lo)%N.

(** ** Values computed by [CreateHunt], as functions of its input *)

(** What the nested loop of [collect_sources] leaves in
    [hunt.ArtifactSources]. *)
Definition sources_of (env : Env) (artifacts : list string)
  (init : slice string) : slice string :=
  fold_left (fun acc artifact =>
    fold_left (fun acc source => append acc [path_Join env artifact source])
      (items (GetArtifactSources env artifact)) acc) artifacts init.

(** [hunt.CreateTime] as line 124 sets it: the first clock reading of the
    call, in microseconds. *)
Definition created (env : Env) (w : World) : Z :=
  uint64 (int64 (Now env (ticks w)) ÷ 1000).

(** [hunt.Expires] after lines 125-128: the caller's value, or seven days
    after the second clock reading. *)
Definition expiry (env : Env) (w : World) (hunt : Hunt) : Z :=
  if bool_decide (Expires hunt = 0)
  then uint64 (int64 (int64 (Now env (S (ticks w))) + week) ÷ 1000)
  else Expires hunt.

(** The steps of [CreateHunt] that can fail before the record is handed to
    the data store. *)
Inductive fails_before_write (env : Env) (w : World) (hunt : Hunt) : Prop :=
| no_data_store e :
    GetDB env = Some e -> fails_before_write env w hunt
| no_start_request :
    StartRequest hunt = None -> fails_before_write env w hunt
| no_artifacts r :
    StartRequest hunt = Some r -> Artifacts r = None ->
    fails_before_write env w hunt
| expiry_in_the_past :
    expiry env w hunt < created env w -> fails_before_write env w hunt
| no_repository_manager e :
    GetRepositoryManager env = Some e -> fails_before_write env w hunt
| no_global_repository e :
    GetGlobalRepository env = Some e -> fails_before_write env w hunt
| no_launcher e :
    GetLauncher env = Some e -> fails_before_write env w hunt
| compilation_fails r e :
    StartRequest hunt = Some r ->
    snd (CompileCollectorArgs env r) = Some e ->
    fails_before_write env w hunt
| notifier_fails e :
    State hunt = RUNNING -> GetNotifier env = true ->
    NotifyByRegex env "^[Cc]\." = Some e ->
    fails_before_write env w hunt.

(** What a block of [CreateHunt] may change without touching what later
    blocks and the data store depend on. *)
Definition kept (h : Hunt) (w : World) (s' : Hunt * World) : Prop :=
  StartRequest (fst s') = StartRequest h /\
  State (fst s') = State h /\
  writes (snd s') = writes w.

(** An early return of [CreateHunt]: an error, and nothing written. *)
Definition early_error (w : World) (r : outcome (string * option error))
  (s' : Hunt * World) : Prop :=
  (exists e, r = returns (EmptyString, Some e)) /\ writes (snd s') = writes w.

(** ** What [ModifyHunt] leaves behind *)

(** The world after the dispatcher has committed [hunt] under [hunt_id]:
    the mirror holds it and the data store has been handed it. *)
Definition committed (env : Env) (d : HuntDispatcher) (hunt_id : string)
  (hunt : Hunt) (w : World) : World :=
  set_dispatcher (Some (mkHuntDispatcher (<[hunt_id := hunt]> (hunts d))))
    (set_writes ((HuntPath env hunt_id, hunt) :: writes w) w).

(** The last three lines of [ModifyHunt]: the clients are notified. *)
Definition notify_all (env : Env) (w : World)
  : outcome (option error) * World :=
  if GetNotifier env
  then (returns (NotifyByRegex env "^[Cc]\."),
        set_notifications ("^[Cc]\." :: notifications w) w)
  else (returns (Some (errors_New "Notifier not ready")), w).

(** The hunt that the mirror holds under [hunt_id]. *)
Definition mirror_lookup (w : World) (hunt_id : string) : option Hunt :=
  d ← dispatcher w; hunts d !! hunt_id.

(** ** [ListHunts]: the order of the answer, and the claim's reading *)

(** The comparison handed to [sort.Slice] on line 240. *)
Definition newer (i j : Hunt) : bool :=
  bool_decide (CreateTime i > CreateTime j).

(** [i] may stand before [j] in an answer that is newest first. *)
Definition newest_first (i j : Hunt) : Prop := CreateTime j <= CreateTime i.

(** The test of line 230. *)
Definition listed (in_ : ListHuntsRequest) (hunt : Hunt) : bool :=
  IncludeArchived in_ || negb (bool_decide (State hunt = ARCHIVED)).

(** The page as the specification words it: of the hunts that match, in
    the order of iteration, skip the first [offset] and collect up to
    [count]. *)
Definition ListHunts_spec (order : list Hunt) (in_ : ListHuntsRequest)
  : list Hunt :=
  take (Z.to_nat (Count in_))
    (drop (Z.to_nat (Offset in_)) (List.filter (listed in_) order)).

(** ** A concrete deployment, for the examples

    Every collaborator answers without error; an artifact has two sources;
    the clock starts in September 2020; the runtime ranges over the mirror
    oldest hunt first. *)

Definition demo_env : Env :=
  mkEnv "H."
    (fun n => 1600000000000000000 + Z.of_nat n)
    None (fun _ _ => None) (fun id => "/hunts/" +:+ id)
    None None
    (fun _ => Some (mkArtifact [mkArtifactSource "One"; mkArtifactSource "Two"]))
    (fun a b => a +:+ "/" +:+ b)
    None (fun _ => ([compiled_query "SELECT * FROM info()"], None))
    true (fun _ => None) None None (fun _ => None)
    (fun m =>
       sorted_by (fun i j => bool_decide (CreateTime i < CreateTime j))
         (map_to_list m).*2).

Definition demo_world : World :=
  mkWorld [x01; xab; xff; x10; x22; x33; x44; x55] 0
    (Some (mkHuntDispatcher ∅)) [] [] 0 [].

(** The same deployment with the data store out of reach. *)
Definition demo_env_no_db : Env :=
  mkEnv (HUNT_PREFIX demo_env) (Now demo_env)
    (Some (errors_New "no datastore")) (SetSubject demo_env)
    (HuntPath demo_env) (GetRepositoryManager demo_env)
    (GetGlobalRepository demo_env) (repository_Get demo_env)
    (path_Join demo_env) (GetLauncher demo_env)
    (CompileCollectorArgs demo_env) (GetNotifier demo_env)
    (NotifyByRegex demo_env) (Refresh demo_env) (GetJournal demo_env)
    (PushRowsToArtifact demo_env) (range_hunts demo_env).

(** The same deployment without a notifier. *)
Definition demo_env_no_notifier : Env :=
  mkEnv (HUNT_PREFIX demo_env) (Now demo_env)
    (GetDB demo_env) (SetSubject demo_env)
    (HuntPath demo_env) (GetRepositoryManager demo_env)
    (GetGlobalRepository demo_env) (repository_Get demo_env)
    (path_Join demo_env) (GetLauncher demo_env)
    (CompileCollectorArgs demo_env) false
    (NotifyByRegex demo_env) (Refresh demo_env) (GetJournal demo_env)
    (PushRowsToArtifact demo_env) (range_hunts demo_env).

(** The same deployment with a data store that refuses every record. *)
Definition demo_env_full_store : Env :=
  mkEnv (HUNT_PREFIX demo_env) (Now demo_env)
    (GetDB demo_env) (fun _ _ => Some (errors_New "no space left on device"))
    (HuntPath demo_env) (GetRepositoryManager demo_env)
    (GetGlobalRepository demo_env) (repository_Get demo_env)
    (path_Join demo_env) (GetLauncher demo_env)
    (CompileCollectorArgs demo_env) (GetNotifier demo_env)
    (NotifyByRegex demo_env) (Refresh demo_env) (GetJournal demo_env)
    (PushRowsToArtifact demo_env) (range_hunts demo_env).

(** A hunt as an administrator submits it. *)
Definition new_hunt (request : option ArtifactCollectorArgs) : Hunt :=
  mkHunt EmptyString EmptyString UNSET 0 0 0 request None None None.

(** A hunt of the mirror. *)
Definition mirrored (id : string) (created_at : Z) (state : Hunt_State)
  (stopped : bool) : Hunt :=
  mkHunt id EmptyString state created_at 0 0 None None None
    (Some (mkHuntStats stopped)).

(** A modification request. *)
Definition modification (id description : string) (state : Hunt_State) : Hunt :=
  mkHunt id description state 0 0 0 None None None None.

(** A request for a state, without a description. *)
Definition desired (id : string) (state : Hunt_State) : Hunt :=
  modification id EmptyString state.

Definition mirror_of (l : list Hunt) : gmap string Hunt :=
  list_to_map ((fun h => (HuntId h, h)) <$> l).

Definition with_mirror (l : list Hunt) (w : World) : World :=
  set_dispatcher (Some (mkHuntDispatcher (mirror_of l))) w.

(** Five hunts, none archived, created at times 1 < 2 < 3 < 4 < 5. *)
Definition five_hunts : list Hunt :=
  [ mirrored "H.1" 1 PAUSED false; mirrored "H.2" 2 RUNNING false;
    mirrored "H.3" 3 PAUSED false; mirrored "H.4" 4 STOPPED false;
    mirrored "H.5" 5 RUNNING false ].

(** One [ModifyHunt] call after the other, by the same user. *)
Fixpoint ModifyHunt_each (env : Env) (user : string) (requests : list Hunt)
  (w : World) : list (outcome (option error)) * World :=
  match requests with
  | [] => ([], w)
  | hunt_modification :: requests' =>
      let '(res, w') := run (ModifyHunt env hunt_modification user) w in
      let '(results, w'') := ModifyHunt_each env user requests' w' in
      (res :: results, w'')
  end.

(** * The rest of [flows/hunts.go] *)

(** ** [FindCollectedArtifacts]

    The function works through a pointer that may be nil; its body runs on
    the record behind a pointer that is not. *)

Definition FindCollectedArtifacts_body (env : Env)
  : Go (Hunt * World) (outcome unit) (outcome unit) :=
  request ← field StartRequest;
  when (match request with
        | None => true
        | Some r => is_nil (Artifacts r)
        end)
    (Return (returns tt));;

  (* Hunt already has artifacts list. *)
  artifacts ← field HuntArtifacts;
  when (bool_decide (len artifacts > 0)) (Return (returns tt));;

  request ← field StartRequest;
  request ← deref request;
  assign (set_HuntArtifacts (Artifacts request));;
  assign (set_ArtifactSources (Some []));;
  collect_sources env (Artifacts request);;
  Return (returns tt).

Definition FindCollectedArtifacts (env : Env) (hunt : option Hunt) (w : World)
  : outcome unit * (option Hunt * World) :=
  match hunt with
  | None => (returns tt, (None, w))
  | Some h =>
      let '(res, (h', w')) := run (FindCollectedArtifacts_body env) (h, w) in
      (res, (Some h', w'))
  end.

(** ** [GetHunt] and [availableHuntDownloadFiles] *)

(** The downloads that [getAvailableDownloadFiles] reports; the message is
    opaque to this file. *)
Inductive AvailableDownloads : Type := available_downloads (files : list string).

(** What [GetHunt] needs beyond [Env]: the path manager's downloads file,
    [path.Dir], and [getAvailableDownloadFiles] of package [flows], which is
    not among the sources. *)
Record Downloads : Type := mkDownloads {
  GetHuntDownloadsFile : string -> string;
  path_Dir : string -> string;
  getAvailableDownloadFiles :
    string -> option AvailableDownloads * option error
}.

Definition availableHuntDownloadFiles (dl : Downloads) (hunt_id : string)
  : option AvailableDownloads * option error :=
  let download_file := GetHuntDownloadsFile dl hunt_id in
  let download_path := path_Dir dl download_file in
  getAvailableDownloadFiles dl download_path.

(** [proto.Clone(hunt_obj)]: a deep copy of the message, field by field.
    A repeated field without elements is not set in the copy: the slice
    is nil there, whether it was nil or allocated and empty in the
    original.  A message behind a pointer stays a message. *)
Definition clone_slice {A} (s : slice A) : slice A :=
  match s with
  | Some [] => None
  | _ => s
  end.

Definition clone_ArtifactCollectorArgs (r : ArtifactCollectorArgs)
  : ArtifactCollectorArgs :=
  mkArtifactCollectorArgs (clone_slice (Artifacts r))
    (clone_slice (CompiledCollectorArgs r)).

Definition proto_Clone (hunt : Hunt) : Hunt :=
  mkHunt (HuntId hunt) (HuntDescription hunt) (State hunt)
    (CreateTime hunt) (StartTime hunt) (Expires hunt)
    (clone_ArtifactCollectorArgs <$> StartRequest hunt)
    (clone_slice (HuntArtifacts hunt))
    (clone_slice (ArtifactSources hunt))
    (Stats hunt).

(** Modelled from the spec: [HuntDispatcher.ModifyHunt] once more, for a
    mutator that is a closure over a variable of type [C] (the [result] of
    [GetHunt]).  It is [dispatcher_ModifyHunt] with the captured variable
    threaded through: lookup in the mirror, the mutator runs on a copy, an
    error (the "not modified" sentinel included) leaves mirror and store
    untouched, [nil] has the copy written to the store and then committed
    to the mirror, and an error of the store is returned with nothing
    committed. *)
Definition dispatcher_ModifyHunt_closure {C} (env : Env) (d : HuntDispatcher)
  (hunt_id : string)
  (mutator : Go (Hunt * (C * World)) (outcome (option error))
                (outcome (option error)))
  (s : C * World) : outcome (option error) * (C * World) :=
  match hunts d !! hunt_id with
  | None => (returns (Some (errors_New "Hunt not found")), s)
  | Some hunt =>
      let '(res, (copy, (c, w'))) := run mutator (hunt, s) in
      match res with
      | panics => (panics, (c, w'))
      | returns (Some e) => (returns (Some e), (c, w'))
      | returns None =>
          let '(err, w'') := db_SetSubject env (HuntPath env hunt_id) copy w' in
          match err with
          | Some e => (returns (Some e), (c, w''))
          | None =>
              (returns None,
               (c, set_dispatcher
                     (Some (mkHuntDispatcher (<[hunt_id := copy]> (hunts d))))
                     w''))
          end
      end
  end.

(** The closure of lines 258-264: it copies the hunt into [result] and
    reports that it did not modify it. *)
Definition GetHunt_mutator
  : Go (Hunt * (option Hunt * World)) (outcome (option error))
       (outcome (option error)) :=
  hunt_obj ← gets fst;
  (* Make a copy of the hunt *)
  modify (fun s => (fst s, (Some (proto_Clone hunt_obj), snd (snd s))));;
  (* We do not modify the hunt so it is not dirty. *)
  Return (returns (Some notModified)).

(** What [GetHunt] returns: the hunt, the downloads that line 275 stores
    in its [Stats] (the [HuntStats] of this file carries the [Stopped] flag
    only), and the error. *)
Record GetHuntResult : Type := mkGetHuntResult {
  got_hunt : option Hunt;
  got_AvailableDownloads : option AvailableDownloads;
  got_err : option error
}.

Definition GetHunt (env : Env) (dl : Downloads) (in_HuntId : string)
  : Go World (outcome GetHuntResult) (outcome GetHuntResult) :=
  d ← gets dispatcher;
  when (is_nil d)
    (Return (returns (mkGetHuntResult None None
                        (Some (errors_New "Hunt dispatcher not valid")))));;
  d ← deref d;

  '(err, result) ←
    call (fun w =>
      let '(res, (result, w')) :=
        dispatcher_ModifyHunt_closure env d in_HuntId GetHunt_mutator
          (None, w) in
      (match res with
       | returns err => returns (err, result)
       | panics => panics
       end, w'));
  when (negb (bool_decide (err = Some notModified)))
    (Return (returns (mkGetHuntResult None None err)));;

  result ← call (fun w =>
    let '(res, (result, w')) := FindCollectedArtifacts env result w in
    (match res with
     | returns _ => returns result
     | panics => panics
     end, w'));

  when (match result with
        | None => true
        | Some r => is_nil (Stats r)
        end)
    (Return (returns (mkGetHuntResult result None
                        (Some (errors_New "Not found")))));;

  let '(downloads, _) := availableHuntDownloadFiles dl in_HuntId in
  Return (returns (mkGetHuntResult result downloads None)).

(** ** [CreateHunt], block by block, as functions of the state *)

(** The state after lines 112-118. *)
Definition with_defaults (env : Env) (s : Hunt * World) : Hunt * World :=
  let '(hunt, w) := s in
  let h :=
    if is_nil (Stats hunt) then set_Stats (Some (mkHuntStats false)) hunt
    else hunt in
  if bool_decide (HuntId hunt = EmptyString)
  then (set_HuntId (fst (GetNewHuntId env w)) h, snd (GetNewHuntId env w))
  else (h, w).

(** The state after lines 124-128. *)
Definition with_times (env : Env) (s : Hunt * World) : Hunt * World :=
  let '(hunt, w) := s in
  let h := set_CreateTime (created env w) hunt in
  if bool_decide (Expires hunt = 0)
  then (set_Expires (expiry env w hunt) h, set_ticks (S (S (ticks w))) w)
  else (h, set_ticks (S (ticks w)) w).

(** The record after lines 134-143, for the start request [r]. *)
Definition with_artifacts (env : Env) (r : ArtifactCollectorArgs)
  (hunt : Hunt) : Hunt :=
  set_ArtifactSources (sources_of env (items (Artifacts r)) (Some []))
    (set_HuntArtifacts (Artifacts r) hunt).

(** The record after lines 166-174, for the start request [r]. *)
Definition with_compiled (env : Env) (r : ArtifactCollectorArgs)
  (hunt : Hunt) : Hunt :=
  set_StartRequest
    (Some (mkArtifactCollectorArgs (Artifacts r)
             (append (CompiledCollectorArgs r)
                (fst (CompileCollectorArgs env r))))) hunt.

(** The state after lines 178-194, when the notification does not fail. *)
Definition with_state (env : Env) (s : Hunt * World) : Hunt * World :=
  let '(hunt, w) := s in
  if decide (State hunt = UNSET) then (set_State PAUSED hunt, w)
  else if decide (State hunt = RUNNING) then
    (set_StartTime (CreateTime hunt) hunt,
     if GetNotifier env
     then set_notifications ("^[Cc]\." :: notifications w) w
     else w)
  else (hunt, w).

(** The state in which line 196 is reached, for an input whose start
    request is [r]. *)
Definition prepared (env : Env) (r : ArtifactCollectorArgs)
  (s : Hunt * World) : Hunt * World :=
  let '(h, w) := with_times env (with_defaults env s) in
  with_state env (with_compiled env r (with_artifacts env r h), w).

(** Lines 196-207 on a state [s]: the result and the world. *)
Definition persisted (env : Env) (s : Hunt * World)
  : outcome (string * option error) * (Hunt * World) :=
  let '(hunt, w) := s in
  let path := HuntPath env (HuntId hunt) in
  let w1 := set_writes ((path, hunt) :: writes w) w in
  match SetSubject env path hunt with
  | Some e => (returns (EmptyString, Some e), (hunt, w1))
  | None =>
      if is_nil (dispatcher w) then (panics, (hunt, w1))
      else (returns (HuntId hunt, Refresh env),
            (hunt, snd (dispatcher_Refresh env w1)))
  end.

(** [quiet s s']: from [s] to [s'] the hunt's state is as it was, nothing
    was written, notified, refreshed or journalled, the mirror is as it was,
    and a hunt that came with an identifier has kept it, without any
    random bytes being drawn. *)
Definition quiet (s s' : Hunt * World) : Prop :=
  State (fst s') = State (fst s) /\
  dispatcher (snd s') = dispatcher (snd s) /\
  writes (snd s') = writes (snd s) /\
  notifications (snd s') = notifications (snd s) /\
  refreshes (snd s') = refreshes (snd s) /\
  journal (snd s') = journal (snd s) /\
  (HuntId (fst s) <> EmptyString ->
   HuntId (fst s') = HuntId (fst s) /\ entropy (snd s') = entropy (snd s)).

(** Seven days, in microseconds. *)
Definition week_micros : Z := 604800000000.

(** ** The denormalised source list

    [hunt.ArtifactSources] as the nested loops of lines 71-78 and 137-143
    leave it: for each artifact in order, the path of each of its sources. *)
Definition source_paths (env : Env) (artifacts : list string) : list string :=
  flat_map (fun artifact =>
              path_Join env artifact <$> items (GetArtifactSources env artifact))
    artifacts.

(** The record after the backfill of lines 69-78, for the artifacts [l]
    of its start request. *)
Definition backfilled (env : Env) (l : list string) (hunt : Hunt) : Hunt :=
  set_ArtifactSources (Some (source_paths env l))
    (set_HuntArtifacts (Some l) hunt).

(** ** [ModifyHunt]: the journal row of an archived hunt

    The row of lines 319-322, for the hunt [h] that the mutator was handed
    in the world [w]. *)
Definition archive_row (env : Env) (hunt_modification : Hunt) (user : string)
  (h : Hunt) (w : World) : JournalRow :=
  mkJournalRow (int64 (Now env (ticks w) `div` 1000000000))
    (set_State ARCHIVED h) user
    "System.Hunt.Archive" "server" (HuntId hunt_modification).

(** A downloads directory for the examples: one prepared archive per
    hunt. *)
Definition demo_downloads : Downloads :=
  mkDownloads (fun hunt_id => "/downloads/hunts/" +:+ hunt_id +:+ "/index")
    (fun file => "/downloads/hunts")
    (fun dir => (Some (available_downloads [dir +:+ "/all.zip"]), None)).

(** * The WMI plugin ([vql/windows/wmi])

    ** [WMIObject]

    The MOF parser of package [wmi_parse] and the dictionaries of
    [vfilter] are not among the sources.  [Parser] is what the plugin uses
    of them: [wmi_parse_Parse n raw] is the answer of the parser to its
    [n]-th call (a parsed object, or an error) and [ToDict] turns the
    object into a pointer to a dictionary. *)

Record Parser : Type := mkParser {
  MOF : Type;
  Dict : Type;
  wmi_parse_Parse : nat -> string -> MOF + error;
  ToDict : MOF -> option Dict
}.

Record WMIObject (P : Parser) : Type := mkWMIObject {
  Raw : string;
  parsed : option (Dict P)
}.

Arguments mkWMIObject {P} Raw parsed.
Arguments Raw {P} w.
Arguments parsed {P} w.

(** [self.Parse()]: the state is the object behind [self] and the number
    of calls that the parser has answered so far. *)
Definition WMIObject_Parse (P : Parser)
  : Go (WMIObject P * nat) (option (Dict P) * option error)
       (option (Dict P) * option error) :=
  self_parsed ← gets (fun s => parsed (fst s));
  when (negb (is_nil self_parsed)) (Return (self_parsed, None));;

  self_Raw ← gets (fun s => Raw (fst s));
  calls ← gets snd;
  modify (fun s => (fst s, S (snd s)));;
  match wmi_parse_Parse P calls self_Raw with
  | inr err => Return (None, Some err)
  | inl mof =>
      modify (fun s => (mkWMIObject (Raw (fst s)) (ToDict P mof), snd s));;
      self_parsed ← gets (fun s => parsed (fst s));
      Return (self_parsed, None)
  end.

(** ** [eventQueryContext]

    A buffered channel as the sending side sees it: what is queued, how
    much fits, and whether the channel has been closed. *)

Record chan (A : Type) : Type := mkchan {
  buffer : list A;
  capacity : nat;
  closed : bool
}.

Arguments mkchan {A} buffer capacity closed.
Arguments buffer {A} c.
Arguments capacity {A} c.
Arguments closed {A} c.

(** [make(chan vfilter.Row, n)] *)
Definition make_chan {A} (n : nat) : chan A := mkchan [] n false.

(** [select { case c <- x: default: }]: the send goes through when there
    is room, nothing happens when there is none, and a send on a closed
    channel panics. *)
Definition select_send_or_default {A} (x : A) (c : chan A)
  : outcome unit * chan A :=
  if closed c then (panics, c)
  else if bool_decide (length (buffer c) < capacity c)%nat
       then (returns tt, mkchan (buffer c ++ [x]) (capacity c) (closed c))
       else (returns tt, c).

Record eventQueryContext (P : Parser) : Type := mkeventQueryContext {
  output : chan (WMIObject P);
  scope_log : list string
}.

Arguments mkeventQueryContext {P} output scope_log.
Arguments output {P} e.
Arguments scope_log {P} e.

Definition eventQueryContext_ProcessEvent {P : Parser} (event : string)
  (self : eventQueryContext P) : outcome unit * eventQueryContext P :=
  let '(res, c) :=
    select_send_or_default (mkWMIObject event None) (output self) in
  (res, mkeventQueryContext c (scope_log self)).

Definition eventQueryContext_Log {P : Parser} (message : string)
  (self : eventQueryContext P) : eventQueryContext P :=
  mkeventQueryContext (output self) (scope_log self ++ [message]).

(** The context that [Call] sets up on lines 113-117: up to 100 messages
    are queued. *)
Definition event_context (P : Parser) : eventQueryContext P :=
  mkeventQueryContext (make_chan 100) [].

(** The callbacks of the C side, one event after the other; a panic ends
    the sequence. *)
Fixpoint process_events {P : Parser} (events : list string)
  (self : eventQueryContext P) : outcome unit * eventQueryContext P :=
  match events with
  | [] => (returns tt, self)
  | event :: events' =>
      match eventQueryContext_ProcessEvent event self with
      | (returns _, self') => process_events events' self'
      | (panics, self') => (panics, self')
      end
  end.

(** A parser for the examples: its first answer is an error, every later
    one the text itself under the key [Raw]. *)
Definition demo_parser : Parser :=
  mkParser string (list (string * string))
    (fun n raw =>
       match n with
       | O => inr (errors_New "unexpected end of input")
       | S _ => inl raw
       end)
    (fun mof => Some [("Raw", mof)]).

(** * Properties *)

Arguments uint64 : simpl never.
Arguments int64 : simpl never.
Arguments GetNewHuntId : simpl never.
Arguments GetArtifactSources : simpl never.
Arguments collect_sources : simpl never.

(** ** The program logic *)

Section WpRules.
Context {S R : Type}.
Implicit Types (s : S) (E : R -> S -> Prop).

Lemma wp_bind {A B} (c : Go S R A) (k : A -> Go S R B) s
  (Q : B -> S -> Prop) E :
  wp c s (fun a s' => wp (k a) s' Q E) E -> wp (c ≫= k) s Q E.
Proof.
  unfold wp, mbind, Go_bind. by destruct (c s) as [[a|r] s'].
Qed.

Lemma wp_mono {A} (c : Go S R A) s (Q Q' : A -> S -> Prop) E E' :
  wp c s Q E ->
  (forall a s', Q a s' -> Q' a s') ->
  (forall r s', E r s' -> E' r s') ->
  wp c s Q' E'.
Proof.
  unfold wp. destruct (c s) as [[a|r] s']; auto.
Qed.

Lemma wp_run (c : Go S R R) s (P : R * S -> Prop) :
  wp c s (fun r s' => P (r, s')) (fun r s' => P (r, s')) -> P (run c s).
Proof.
  unfold wp, run. by destruct (c s) as [[r|r] s'].
Qed.
End WpRules.

(** Sequencing with the specification of the first statement. *)
Ltac wp_seq spec :=
  apply wp_bind; eapply wp_mono; [apply spec | cbv beta | cbv beta].

(** ** Hexadecimal encoding *)

Lemma hex_decode_encode (v : byte) :
  hex_decode_byte (hex_digit (N.shiftr (Byte.to_N v) 4))
                  (hex_digit (N.land (Byte.to_N v) 15)) = Some v.
Proof. destruct v; vm_compute; reflexivity. Qed.

Lemma hex_encoded_inj (a b : list byte) :
  hex_encoded a = hex_encoded b -> a = b.
Proof.
  revert b. induction a as [|x a IH]; intros [|y b] H; simpl in H;
    try discriminate; [reflexivity|].
  injection H as Hhi Hlo Hrest.
  f_equal; [|by apply IH].
  pose proof (hex_decode_encode x) as Hx.
  rewrite Hhi, Hlo, hex_decode_encode in Hx. by injection Hx.
Qed.

Lemma length_hex_encoded (a : list byte) :
  length (hex_encoded a) = (2 * length a)%nat.
Proof. induction a; simpl; lia. Qed.

Lemma hex_Encode_exact dst src :
  length dst = (2 * length src)%nat -> hex_Encode dst src = hex_encoded src.
Proof.
  intros H. unfold hex_Encode.
  rewrite drop_ge, app_nil_r; [done|]. rewrite length_hex_encoded. lia.
Qed.

Lemma string_of_list_byte_inj : Inj eq eq string_of_list_byte.
Proof.
  intros a b H. apply (f_equal list_byte_of_string) in H.
  by rewrite !list_byte_of_string_of_list_byte in H.
Qed.

Lemma length_string_of_list_byte (l : list byte) :
  String.length (string_of_list_byte l) = length l.
Proof.
  unfold string_of_list_byte.
  induction l as [|b l IH]; simpl; [done|]. by rewrite IH.
Qed.

Lemma length_append (a b : string) :
  String.length (a +:+ b) = (String.length a + String.length b)%nat.
Proof.
  induction a as [|c a IH]; [done|].
  change (String c a +:+ b) with (String c (a +:+ b)). simpl. by rewrite IH.
Qed.

(** ** [GetNewHuntId] *)

Lemma length_rand_Read buf w : length (fst (rand_Read buf w)) = length buf.
Proof.
  unfold rand_Read; simpl. rewrite length_app, length_drop, length_take. lia.
Qed.

Lemma GetNewHuntId_eq env w :
  GetNewHuntId env w =
    (HUNT_PREFIX env
       +:+ string_of_list_byte (hex_encoded (fst (rand_Read (make 4) w))),
     set_entropy (drop 4 (entropy w)) w).
Proof.
  unfold GetNewHuntId. destruct (rand_Read (make 4) w) as [buf w'] eqn:E.
  pose proof (length_rand_Read (make 4) w) as L. rewrite E in L.
  change (length (make 4)) with 4%nat in L. simpl fst in *.
  rewrite hex_Encode_exact by (rewrite L; reflexivity).
  unfold rand_Read in E. by injection E as _ <-.
Qed.

Lemma GetNewHuntId_fst env w :
  fst (GetNewHuntId env w) =
    HUNT_PREFIX env
      +:+ string_of_list_byte (hex_encoded (fst (rand_Read (make 4) w))).
Proof. by rewrite GetNewHuntId_eq. Qed.

Lemma GetNewHuntId_snd env w :
  snd (GetNewHuntId env w) = set_entropy (drop 4 (entropy w)) w.
Proof. by rewrite GetNewHuntId_eq. Qed.

(** Every four-byte value can be what [rand.Read] delivers. *)
Lemma rand_Read_any_four_bytes (buf : list byte) (w : World) :
  length buf = 4%nat -> fst (rand_Read (make 4) (set_entropy buf w)) = buf.
Proof.
  intros L. unfold rand_Read. simpl entropy. simpl fst.
  change (length (make 4)) with 4%nat.
  rewrite take_ge by lia. rewrite L. simpl. apply app_nil_r.
Qed.

(** C3, as the code has it: the identifier is the fixed prefix followed by
    the hexadecimal encoding of the FOUR bytes that [rand.Read] delivers,
    that is eight hexadecimal digits; two identifiers are equal exactly
    when their four bytes are, so the identifier space is that of four-byte
    values (2^32). *)
Theorem GetNewHuntId_four_random_bytes (env : Env) (w : World) :
  let buf := fst (rand_Read (make 4) w) in
  length buf = 4%nat /\
  fst (GetNewHuntId env w)
    = HUNT_PREFIX env +:+ string_of_list_byte (hex_encoded buf) /\
  String.length (fst (GetNewHuntId env w))
    = (String.length (HUNT_PREFIX env) + 8)%nat /\
  forall w2 : World,
    fst (GetNewHuntId env w) = fst (GetNewHuntId env w2)
    <-> buf = fst (rand_Read (make 4) w2).
Proof.
  intros buf. subst buf.
  pose proof (length_rand_Read (make 4) w) as L.
  change (length (make 4)) with 4%nat in L.
  rewrite GetNewHuntId_fst.
  split; [exact L|]. split; [reflexivity|]. split.
  - rewrite length_append, length_string_of_list_byte, length_hex_encoded, L.
    reflexivity.
  - intros w2. rewrite GetNewHuntId_fst. split.
    + intros H. apply String.app_inj in H.
      by apply hex_encoded_inj, string_of_list_byte_inj.
    + by intros ->.
Qed.

(** C3, as the claim has it, fails: the identifier generated from the
    entropy 01 ab ff 10 22 33 44 55 is not the prefix followed by the
    encoding of any eight-byte value, and changing the last four of these
    eight bytes leaves the identifier as it is. *)
Lemma GetNewHuntId_not_eight_random_bytes :
  ~ (exists v : list byte,
        length v = 8%nat /\
        fst (GetNewHuntId demo_env demo_world)
          = HUNT_PREFIX demo_env +:+ string_of_list_byte (hex_encoded v))
  /\ fst (GetNewHuntId demo_env demo_world)
     = fst (GetNewHuntId demo_env
              (set_entropy [x01; xab; xff; x10; x99; x88; x77; x66]
                 demo_world)).
Proof.
  split; [|vm_compute; reflexivity].
  intros (v & Hv & H). apply (f_equal String.length) in H.
  rewrite length_append, length_string_of_list_byte, length_hex_encoded, Hv in H.
  vm_compute in H. discriminate.
Qed.

(** ** Symbolic execution of small bodies *)

Ltac go_unfold :=
  unfold mbind, Go_bind, when, field, assign, world, gets, modify, act, call,
    Return, mret, Go_ret, deref.

Ltac go_step :=
  match goal with
  | H : ?x = _ |- context [is_nil ?x] => rewrite H
  | H : ?x = _ |- context [return_err ?x] => rewrite H
  | H : ?x = _ |- context [return_if ?x] => rewrite H
  | H : ?x = _ |- context [match ?x with Some _ => _ | None => _ end] =>
      rewrite H
  | H : ?x = _ |- context [if ?x then _ else _] => rewrite H
  | H : ?x = _ |- context [decide (?x = _)] => rewrite H
  | H : ?P |- context [bool_decide ?P] => rewrite (bool_decide_eq_true_2 P H)
  | H : ~ ?P |- context [bool_decide ?P] =>
      rewrite (bool_decide_eq_false_2 P H)
  | H : ?P |- context [decide ?P] => destruct (decide P); [|contradiction]
  | H : ~ ?P |- context [decide ?P] => destruct (decide P); [contradiction|]
  | H : ?x = _ |- context [bool_decide (?x = _)] => rewrite H
  | |- context [is_nil ?x] => destruct x eqn:?
  | |- context [bool_decide ?P] => destruct (bool_decide_reflect P)
  | |- context [decide ?P] => destruct (decide P)
  | |- context [return_err ?x] => destruct x eqn:?
  | |- context [return_if ?x] => destruct x eqn:?
  | |- context [match ?x with Some _ => _ | None => _ end] => destruct x eqn:?
  | |- context [if ?x then _ else _] => destruct x eqn:?
  end.

Ltac go_exec := go_unfold; cbn; repeat (go_step; cbn).

(** ** [CreateHunt], block by block *)

Lemma set_ArtifactSources_id h : set_ArtifactSources (ArtifactSources h) h = h.
Proof. by destruct h. Qed.

Lemma collect_sources_run {R} env artifacts h w :
  collect_sources (R:=R) env artifacts (h, w)
  = (inl tt,
     (set_ArtifactSources
        (sources_of env (items artifacts) (ArtifactSources h)) h, w)).
Proof.
  unfold collect_sources, sources_of.
  generalize (items artifacts) as l. intros l. revert h.
  induction l as [|a l IH]; intros h; simpl.
  - by rewrite set_ArtifactSources_id.
  - unfold mbind, Go_bind at 1.
    assert (Hin : forall srcs h,
      for_range (R:=R) srcs (fun source : string =>
        sources ← field ArtifactSources;
        assign (set_ArtifactSources
                  (append sources [path_Join env a source]))) (h, w)
      = (inl tt,
         (set_ArtifactSources
            (fold_left
               (fun acc source => append acc [path_Join env a source])
               srcs (ArtifactSources h)) h, w))).
    { clear. induction srcs as [|s srcs IHs]; intros h; simpl.
      - by rewrite set_ArtifactSources_id.
      - unfold mbind, Go_bind at 1. simpl. rewrite IHs. reflexivity. }
    rewrite Hin. rewrite IH. reflexivity.
Qed.

Section CreateHuntBlocks.
Variable env : Env.
Implicit Types (h : Hunt) (w : World).

Lemma CreateHunt_defaults_spec h w :
  wp (CreateHunt_defaults env) (h, w)
    (fun _ s' => kept h w s' /\ Expires (fst s') = Expires h /\
                 ticks (snd s') = ticks w)
    (fun _ _ => False).
Proof.
  unfold wp, CreateHunt_defaults, kept. go_exec;
    rewrite ?GetNewHuntId_eq; cbn; auto.
Qed.

Lemma CreateHunt_validate_spec h w :
  wp (CreateHunt_validate) (h, w)
    (fun _ s' => s' = (h, w) /\
                 exists r l, StartRequest h = Some r /\ Artifacts r = Some l)
    (fun r s' => early_error w r s' /\
                 (StartRequest h = None \/
                  exists r, StartRequest h = Some r /\ Artifacts r = None)).
Proof.
  unfold wp, CreateHunt_validate, early_error. go_exec; eauto 8.
Qed.

Lemma CreateHunt_times_spec h w :
  wp (CreateHunt_times env) (h, w)
    (fun _ s' => kept h w s' /\ ~ expiry env w h < created env w)
    (fun r s' => early_error w r s' /\ expiry env w h < created env w).
Proof.
  unfold wp, CreateHunt_times, early_error, kept, expiry, created.
  go_exec; eauto 8.
Qed.

Lemma CreateHunt_artifacts_spec h w r :
  StartRequest h = Some r ->
  wp (CreateHunt_artifacts env) (h, w) (fun _ s' => kept h w s')
    (fun _ _ => False).
Proof.
  intros Hr. unfold wp, CreateHunt_artifacts, kept. go_exec.
  rewrite collect_sources_run. cbn. auto.
Qed.

Lemma CreateHunt_compile_spec h w r :
  StartRequest h = Some r ->
  wp (CreateHunt_compile env) (h, w)
    (fun _ s' => State (fst s') = State h /\ writes (snd s') = writes w /\
                 GetRepositoryManager env = None /\
                 GetGlobalRepository env = None /\
                 GetLauncher env = None /\
                 snd (CompileCollectorArgs env r) = None)
    (fun res s' => early_error w res s' /\
                   (is_Some (GetRepositoryManager env) \/
                    is_Some (GetGlobalRepository env) \/
                    is_Some (GetLauncher env) \/
                    is_Some (snd (CompileCollectorArgs env r)))).
Proof.
  intros Hr. unfold wp, CreateHunt_compile, early_error.
  destruct (CompileCollectorArgs env r) as [compiled err] eqn:Hc.
  go_exec; rewrite ?Hc; go_exec; eauto 10.
Qed.

Lemma CreateHunt_state_spec h w :
  wp (CreateHunt_state env) (h, w)
    (fun _ s' => writes (snd s') = writes w /\
                 ~ (State h = RUNNING /\ GetNotifier env = true /\
                    is_Some (NotifyByRegex env "^[Cc]\.")))
    (fun res s' => early_error w res s' /\
                   State h = RUNNING /\ GetNotifier env = true /\
                   is_Some (NotifyByRegex env "^[Cc]\.")).
Proof.
  unfold wp, CreateHunt_state, early_error.
  go_exec; try (split; [done|]); eauto 8;
    intros (? & ? & [? ?]); congruence.
Qed.

Lemma CreateHunt_persist_spec h w :
  let written s' :=
    writes (snd s') = (HuntPath env (HuntId h), h) :: writes w in
  wp (CreateHunt_persist env) (h, w) (fun _ => written) (fun _ => written).
Proof.
  unfold wp, CreateHunt_persist, dispatcher_Refresh. go_unfold. cbn.
  destruct (SetSubject env _ _); cbn; [reflexivity|].
  destruct (dispatcher w); cbn; [|reflexivity].
  destruct (Refresh env); reflexivity.
Qed.
End CreateHuntBlocks.

(** Everything before line 196 either returns an error, with nothing
    written and one of the failures of [fails_before_write] at hand, or
    hands over to what follows ([rest]) without any of these failures and
    with nothing written. *)
Lemma CreateHunt_reaches_write {A} (env : Env) (hunt : Hunt) (w : World)
  (rest : Go (Hunt * World) (outcome (string * option error)) A)
  (Q : A -> Hunt * World -> Prop)
  (E : outcome (string * option error) -> Hunt * World -> Prop) :
  (forall r s', early_error w r s' -> fails_before_write env w hunt ->
                E r s') ->
  (forall s', writes (snd s') = writes w ->
              ~ fails_before_write env w hunt -> wp rest s' Q E) ->
  wp (return_err (GetDB env);;
      CreateHunt_defaults env;;
      CreateHunt_validate;;
      CreateHunt_times env;;
      CreateHunt_artifacts env;;
      CreateHunt_compile env;;
      CreateHunt_state env;;
      rest) (hunt, w) Q E.
Proof.
  intros HE Hrest.
  assert (HE' : forall w', writes w' = writes w ->
                  forall r s', early_error w' r s' ->
                  fails_before_write env w hunt -> E r s').
  { intros w' Hw' r s' [? Hw]. apply HE. split; [done | congruence]. }
  apply wp_bind. destruct (GetDB env) as [e|] eqn:Hdb.
  { apply HE; [by split; [eexists|] | by eapply no_data_store]. }
  unfold wp at 1; simpl.
  wp_seq CreateHunt_defaults_spec; [|done].
  intros _ [h1 w1] ((Hr1 & Hs1 & Hw1) & He1 & Ht1); simpl in *.
  wp_seq CreateHunt_validate_spec.
  2:{ intros r s' [? Hwhy]. eapply HE'; [done..|]. rewrite Hr1 in Hwhy.
      destruct Hwhy as [?|(r0 & ? & ?)];
        [by apply no_start_request | by eapply no_artifacts]. }
  intros _ s2 [-> (r & l & Hr & Hl)]. rewrite Hr1 in Hr.
  wp_seq CreateHunt_times_spec.
  2:{ intros ? s' [? Hwhy]. eapply HE'; [done..|]. apply expiry_in_the_past.
      unfold expiry, created in *. by rewrite <- He1, <- Ht1. }
  intros _ [h3 w3] ((Hr3 & Hs3 & Hw3) & Hexp); simpl in *.
  assert (Hexp' : ~ expiry env w hunt < created env w).
  { unfold expiry, created in *. by rewrite <- He1, <- Ht1. }
  wp_seq (CreateHunt_artifacts_spec env h3 w3 r); [congruence| |done].
  intros _ [h4 w4] (Hr4 & Hs4 & Hw4); simpl in *.
  wp_seq (CreateHunt_compile_spec env h4 w4 r); [congruence| |].
  2:{ intros ? s' [? Hwhy]. eapply HE'; [|done|]; [congruence|].
      destruct Hwhy as [[? ?]|[[? ?]|[[? ?]|[? ?]]]];
        [ by eapply no_repository_manager | by eapply no_global_repository
        | by eapply no_launcher | by eapply compilation_fails ]. }
  intros _ [h5 w5] (Hs5 & Hw5 & Hrm & Hgr & Hl' & Hc); simpl in *.
  wp_seq CreateHunt_state_spec.
  2:{ intros ? s' [? (? & ? & [? ?])]. eapply HE'; [|done|]; [congruence|].
      eapply notifier_fails; [congruence|done..]. }
  intros _ [h6 w6] (Hw6 & Hn); simpl in *.
  apply Hrest; simpl; [congruence|].
  intros Hfail. apply Hn.
  replace (State h5) with (State hunt) by congruence.
  destruct Hfail; try congruence. by eauto.
Qed.

(** C5: when a step fails before the record is handed to the data store,
    [CreateHunt] returns an error and the data store has not been written
    to. *)
Theorem CreateHunt_no_write_on_early_failure
  (env : Env) (w : World) (hunt : Hunt) :
  fails_before_write env w hunt ->
  (exists e, fst (run (CreateHunt env) (hunt, w))
             = returns (EmptyString, Some e))
  /\ writes (snd (snd (run (CreateHunt env) (hunt, w)))) = writes w.
Proof.
  intros Hfail.
  pose (P := fun res : outcome (string * option error) * (Hunt * World) =>
               (exists e, fst res = returns (EmptyString, Some e))
               /\ writes (snd (snd res)) = writes w).
  change (P (run (CreateHunt env) (hunt, w))).
  apply wp_run.
  exact (CreateHunt_reaches_write env hunt w (CreateHunt_persist env)
           (fun r s' => P (r, s')) (fun r s' => P (r, s'))
           (fun r s' H _ => H)
           (fun s' _ Hok => False_ind _ (Hok Hfail))).
Qed.

Lemma CreateHunt_no_write_on_early_failure_witness :
  let request := mkArtifactCollectorArgs (Some ["Generic.Client.Info"]) None in
  let hunt := set_Expires 1 (new_hunt (Some request)) in
  expiry demo_env demo_world hunt < created demo_env demo_world /\
  (exists e, fst (run (CreateHunt demo_env) (hunt, demo_world))
             = returns (EmptyString, Some e))
  /\ writes (snd (snd (run (CreateHunt demo_env) (hunt, demo_world))))
     = writes demo_world.
Proof.
  assert (H : expiry demo_env demo_world
                (set_Expires 1
                   (new_hunt
                      (Some (mkArtifactCollectorArgs
                               (Some ["Generic.Client.Info"]) None))))
              < created demo_env demo_world) by (vm_compute; reflexivity).
  split; [exact H|].
  apply CreateHunt_no_write_on_early_failure.
  apply expiry_in_the_past. exact H.
Defined.

(** The other way round: when none of these steps fails, the record is
    handed to the data store, once. *)
Lemma CreateHunt_writes_otherwise (env : Env) (w : World) (hunt : Hunt) :
  ~ fails_before_write env w hunt ->
  exists path h',
    writes (snd (snd (run (CreateHunt env) (hunt, w))))
    = (path, h') :: writes w.
Proof.
  intros Hok.
  pose (P := fun res : outcome (string * option error) * (Hunt * World) =>
               exists path h',
                 writes (snd (snd res)) = (path, h') :: writes w).
  change (P (run (CreateHunt env) (hunt, w))).
  apply wp_run.
  refine (CreateHunt_reaches_write env hunt w (CreateHunt_persist env)
            (fun r s' => P (r, s')) (fun r s' => P (r, s'))
            (fun r s' _ Hfail => False_ind _ (Hok Hfail)) _).
  intros [h' w'] Hw _; simpl in Hw.
  eapply wp_mono; [apply CreateHunt_persist_spec | |]; cbv beta;
    intros ? s' Hs'; unfold P; simpl; rewrite Hs', Hw; eauto.
Qed.

(** C9, as the code has it: once the data store handle is there, an input
    with an empty [HuntId], no [Stats] and no artifact list is rejected
    with the validation error, and the caller's record comes back with a
    generated [HuntId] and zero-value [Stats]: it is not the record the
    caller passed. *)
Theorem CreateHunt_mutates_before_validation
  (env : Env) (w : World) (hunt : Hunt) :
  GetDB env = None ->
  HuntId hunt = EmptyString ->
  Stats hunt = None ->
  (StartRequest hunt = None \/
   exists r, StartRequest hunt = Some r /\ Artifacts r = None) ->
  let hunt' :=
    set_HuntId (fst (GetNewHuntId env w))
      (set_Stats (Some (mkHuntStats false)) hunt) in
  run (CreateHunt env) (hunt, w)
  = (returns (EmptyString, Some (errors_New "No artifacts to collect.")),
     (hunt', snd (GetNewHuntId env w)))
  /\ hunt' <> hunt.
Proof.
  intros Hdb Hid Hstats Hreq hunt'. subst hunt'. split.
  - unfold run, CreateHunt, CreateHunt_defaults, CreateHunt_validate.
    rewrite Hdb. go_unfold. cbn. rewrite Hstats. cbn.
    rewrite Hid, (bool_decide_eq_true_2 _ (eq_refl EmptyString)). cbn.
    destruct (GetNewHuntId env w) as [id w1]. cbn.
    destruct Hreq as [->|(r & -> & ->)]; reflexivity.
  - intros Heq. apply (f_equal Stats) in Heq. simpl in Heq. congruence.
Qed.

Lemma CreateHunt_mutates_before_validation_witness :
  let hunt := new_hunt None in
  let hunt' :=
    set_HuntId (fst (GetNewHuntId demo_env demo_world))
      (set_Stats (Some (mkHuntStats false)) hunt) in
  run (CreateHunt demo_env) (hunt, demo_world)
  = (returns (EmptyString, Some (errors_New "No artifacts to collect.")),
     (hunt', snd (GetNewHuntId demo_env demo_world)))
  /\ hunt' <> hunt.
Proof.
  apply (CreateHunt_mutates_before_validation demo_env demo_world
           (new_hunt None)); [reflexivity..|].
  left. reflexivity.
Defined.

(** C9, as the claim has it, fails: with the data store out of reach,
    [CreateHunt] returns an error for such an input and the caller's
    record is exactly as it was. *)
Lemma CreateHunt_leaves_input_alone_without_data_store :
  HuntId (new_hunt None) = EmptyString /\
  Stats (new_hunt None) = None /\
  StartRequest (new_hunt None) = None /\
  run (CreateHunt demo_env_no_db) (new_hunt None, demo_world)
  = (returns (EmptyString, Some (errors_New "no datastore")),
     (new_hunt None, demo_world)).
Proof. repeat split. Qed.

(** C4 on the code: a start request whose artifact list is allocated but
    empty passes the check of line 120; the hunt is created and its record
    is handed to the data store. *)
Theorem CreateHunt_accepts_empty_artifact_list :
  let request := mkArtifactCollectorArgs (Some []) None in
  let res := run (CreateHunt demo_env) (new_hunt (Some request), demo_world) in
  len (Artifacts request) = 0 /\
  fst res = returns ("H.01abff10", None) /\
  exists record, writes (snd (snd res)) = [("/hunts/H.01abff10", record)].
Proof.
  split; [reflexivity|]. split; [vm_compute; reflexivity|].
  eexists. vm_compute. reflexivity.
Qed.

(** ** [ModifyHunt] *)

Section Mutator.
Variables (env : Env) (hunt_modification : Hunt) (user : string).
Implicit Types (h : Hunt) (w : World) (s : HuntStats).

Local Abbreviation mutator := (ModifyHunt_mutator env hunt_modification user).

Lemma mutator_invalid_hunt h w :
  Stats h = None ->
  run mutator (h, w)
  = (returns (Some (errors_New "Invalid hunt")), (h, w)).
Proof.
  intros Hs. unfold run, ModifyHunt_mutator. go_exec. reflexivity.
Qed.

Lemma mutator_description h w s :
  Stats h = Some s ->
  HuntDescription hunt_modification <> EmptyString ->
  run mutator (h, w)
  = (returns None,
     (set_HuntDescription (HuntDescription hunt_modification) h, w)).
Proof.
  intros Hs Hd. unfold run, ModifyHunt_mutator.
  go_exec; done.
Qed.

Lemma mutator_start_stopped h w s :
  Stats h = Some s -> Stopped s = true ->
  HuntDescription hunt_modification = EmptyString ->
  State hunt_modification = RUNNING ->
  run mutator (h, w)
  = (returns (Some (errors_New "Can not start a stopped hunt.")), (h, w)).
Proof.
  intros Hs Hstopped Hd Hr. unfold run, ModifyHunt_mutator.
  go_exec; done.
Qed.

Lemma mutator_start h w s :
  Stats h = Some s -> Stopped s = false ->
  HuntDescription hunt_modification = EmptyString ->
  State hunt_modification = RUNNING ->
  run mutator (h, w)
  = (returns None,
     (set_StartTime (uint64 (int64 (Now env (ticks w)) ÷ 1000))
        (set_State RUNNING h),
      set_ticks (S (ticks w)) w)).
Proof.
  intros Hs Hstopped Hd Hr. unfold run, ModifyHunt_mutator.
  go_exec; done.
Qed.
End Mutator.

Section ModifyHuntCall.
Variables (env : Env) (hunt_modification : Hunt) (user : string).
Variables (w : World) (d : HuntDispatcher) (h : Hunt).
Hypothesis Hd : dispatcher w = Some d.
Hypothesis Hh : hunts d !! HuntId hunt_modification = Some h.

Local Abbreviation mutator := (ModifyHunt_mutator env hunt_modification user).

(** The mutator's error is the caller's error; nothing is committed. *)
Lemma ModifyHunt_rejected e h' w' :
  run mutator (h, w) = (returns (Some e), (h', w')) ->
  run (ModifyHunt env hunt_modification user) w = (returns (Some e), w').
Proof.
  intros Hm. unfold run at 1, ModifyHunt, dispatcher_ModifyHunt.
  go_unfold. cbn. rewrite Hd. cbn. rewrite Hh.
  rewrite Hm. reflexivity.
Qed.

(** The mutator's success is written to the store; when the store
    accepts it, it is committed to the mirror, then the clients are
    notified. *)
Lemma ModifyHunt_accepted h' w' :
  run mutator (h, w) = (returns None, (h', w')) ->
  SetSubject env (HuntPath env (HuntId hunt_modification)) h' = None ->
  run (ModifyHunt env hunt_modification user) w
  = notify_all env (committed env d (HuntId hunt_modification) h' w').
Proof.
  intros Hm Hstore.
  unfold run at 1, ModifyHunt, dispatcher_ModifyHunt, notify_all.
  go_unfold. cbn. rewrite Hd. cbn. rewrite Hh.
  rewrite Hm. cbn. rewrite Hstore. cbn.
  destruct (GetNotifier env); reflexivity.
Qed.

(** The store's error is the caller's error: the record has been handed
    to the store, and nothing is committed or notified. *)
Lemma ModifyHunt_refused e h' w' :
  run mutator (h, w) = (returns None, (h', w')) ->
  SetSubject env (HuntPath env (HuntId hunt_modification)) h' = Some e ->
  run (ModifyHunt env hunt_modification user) w
  = (returns (Some e),
     set_writes ((HuntPath env (HuntId hunt_modification), h') :: writes w')
       w').
Proof.
  intros Hm Hstore. unfold run at 1, ModifyHunt, dispatcher_ModifyHunt.
  go_unfold. cbn. rewrite Hd. cbn. rewrite Hh.
  rewrite Hm. cbn. rewrite Hstore. reflexivity.
Qed.
End ModifyHuntCall.

Lemma mirror_lookup_notify_all env w id :
  mirror_lookup (snd (notify_all env w)) id = mirror_lookup w id.
Proof. unfold notify_all. by destruct (GetNotifier env). Qed.

Lemma mirror_lookup_committed env d id hunt w :
  mirror_lookup (committed env d id hunt w) id = Some hunt.
Proof. unfold mirror_lookup, committed. simpl. apply lookup_insert_eq. Qed.

(** C6, as the code has it: a request with desired state [RUNNING] never
    moves a hunt whose [Stats.Stopped] is set to another state; when its
    description is empty it fails with an error and changes nothing; and
    for a hunt whose [Stats.Stopped] is not set, the request with an empty
    description takes the [PAUSED] hunt to [RUNNING] and sets [StartTime]
    from the clock when the data store accepts the record, and it then
    succeeds when there is a notifier whose notification succeeds. *)
Theorem ModifyHunt_start_request
  (env : Env) (hunt_modification : Hunt) (user : string)
  (w : World) (d : HuntDispatcher) (h : Hunt) (s : HuntStats) :
  dispatcher w = Some d ->
  hunts d !! HuntId hunt_modification = Some h ->
  Stats h = Some s ->
  State hunt_modification = RUNNING ->
  let id := HuntId hunt_modification in
  let res := run (ModifyHunt env hunt_modification user) w in
  let started :=
    set_StartTime (uint64 (int64 (Now env (ticks w)) ÷ 1000))
      (set_State RUNNING h) in
  (Stopped s = true ->
     State <$> mirror_lookup (snd res) id = Some (State h))
  /\ (Stopped s = true ->
      HuntDescription hunt_modification = EmptyString ->
      res = (returns (Some (errors_New "Can not start a stopped hunt.")), w))
  /\ (Stopped s = false ->
      HuntDescription hunt_modification = EmptyString ->
      State h = PAUSED ->
      SetSubject env (HuntPath env id) started = None ->
      mirror_lookup (snd res) id = Some started /\
      fst res = fst (notify_all env w) /\
      (GetNotifier env = true -> NotifyByRegex env "^[Cc]\." = None ->
       fst res = returns None)).
Proof.
  intros Hd Hh Hs Hr id res started. subst id res started.
  assert (Hb : Stopped s = true ->
               HuntDescription hunt_modification = EmptyString ->
               run (ModifyHunt env hunt_modification user) w
               = (returns (Some (errors_New "Can not start a stopped hunt.")),
                  w)).
  { intros Hstopped Hdesc. eapply ModifyHunt_rejected; [done..|].
    by eapply mutator_start_stopped. }
  assert (Hsame : mirror_lookup w (HuntId hunt_modification) = Some h).
  { unfold mirror_lookup. rewrite Hd. exact Hh. }
  split; [|split; [exact Hb|]].
  - intros Hstopped.
    destruct (decide (HuntDescription hunt_modification = EmptyString))
      as [Hdesc|Hdesc].
    + rewrite Hb by done. simpl. by rewrite Hsame.
    + pose proof (mutator_description env hunt_modification user h w s
                    Hs Hdesc) as Hm.
      destruct (SetSubject env (HuntPath env (HuntId hunt_modification))
                  (set_HuntDescription (HuntDescription hunt_modification) h))
        as [e|] eqn:Hstore.
      * erewrite ModifyHunt_refused by done. simpl.
        unfold mirror_lookup in *. simpl. by rewrite Hsame.
      * erewrite ModifyHunt_accepted by done.
        by rewrite mirror_lookup_notify_all, mirror_lookup_committed.
  - intros Hstopped Hdesc _ Hstore.
    erewrite ModifyHunt_accepted; [|done..|by eapply mutator_start|done].
    rewrite mirror_lookup_notify_all, mirror_lookup_committed.
    split; [done|].
    assert (Hres : forall w1 w2, fst (notify_all env w1)
                                 = fst (notify_all env w2)).
    { intros w1 w2. unfold notify_all. by destruct (GetNotifier env). }
    split; [apply Hres|].
    intros Hn Hok. unfold notify_all. by rewrite Hn, Hok.
Qed.

Lemma ModifyHunt_start_request_witness :
  let w := with_mirror [mirrored "H.1" 1 PAUSED false] demo_world in
  let res :=
    run (ModifyHunt demo_env (desired "H.1" RUNNING) "admin") w in
  let started :=
    set_StartTime (uint64 (int64 (Now demo_env (ticks w)) ÷ 1000))
      (set_State RUNNING (mirrored "H.1" 1 PAUSED false)) in
  mirror_lookup (snd res) "H.1" = Some started /\
  fst res = fst (notify_all demo_env w) /\
  (GetNotifier demo_env = true -> NotifyByRegex demo_env "^[Cc]\." = None ->
   fst res = returns None).
Proof.
  refine (proj2 (proj2
    (ModifyHunt_start_request demo_env (desired "H.1" RUNNING) "admin"
       (with_mirror [mirrored "H.1" 1 PAUSED false] demo_world)
       (mkHuntDispatcher (mirror_of [mirrored "H.1" 1 PAUSED false]))
       (mirrored "H.1" 1 PAUSED false) (mkHuntStats false)
       _ _ _ _)) _ _ _ _).
  - reflexivity.
  - vm_compute. reflexivity.
  - reflexivity.
  - reflexivity.
  - reflexivity.
  - reflexivity.
  - reflexivity.
  - reflexivity.
Defined.

(** C6, as the claim has it, fails in both halves.  First half: the
    hunt's [Stats.Stopped] is set and the request's desired state is
    [RUNNING], but the request also carries a description; [ModifyHunt]
    returns no error.  Second half: the hunt is [PAUSED], its
    [Stats.Stopped] is not set and the request asks for [RUNNING] without
    a description; without a notifier (line 366) [ModifyHunt] returns the
    error "Notifier not ready", and with a data store that refuses the
    record it returns the store's error and the hunt stays [PAUSED]. *)
Lemma ModifyHunt_start_request_exceptions :
  (let w := with_mirror [mirrored "H.1" 1 STOPPED true] demo_world in
   let request := modification "H.1" "renamed" RUNNING in
   Stopped <$> (mirror_lookup w "H.1" ≫= Stats) = Some true /\
   State request = RUNNING /\
   fst (run (ModifyHunt demo_env request "admin") w) = returns None)
  /\
  (let w := with_mirror [mirrored "H.1" 1 PAUSED false] demo_world in
   let request := desired "H.1" RUNNING in
   Stopped <$> (mirror_lookup w "H.1" ≫= Stats) = Some false /\
   State <$> mirror_lookup w "H.1" = Some PAUSED /\
   fst (run (ModifyHunt demo_env_no_notifier request "admin") w)
   = returns (Some (errors_New "Notifier not ready")) /\
   fst (run (ModifyHunt demo_env_full_store request "admin") w)
   = returns (Some (errors_New "no space left on device")) /\
   State <$> mirror_lookup
               (snd (run (ModifyHunt demo_env_full_store request "admin") w))
               "H.1"
   = Some PAUSED).
Proof. repeat split; vm_compute; reflexivity. Qed.

(** C10, as the code has it: for a hunt that has [Stats], a request with
    an empty description and a desired state that is neither [ARCHIVED]
    nor [RUNNING] sets the state to [STOPPED] and reports success,
    whatever state the hunt is in. *)
Theorem ModifyHunt_mutator_defaults_to_STOPPED
  (env : Env) (hunt_modification : Hunt) (user : string)
  (h : Hunt) (w : World) (s : HuntStats) :
  Stats h = Some s ->
  HuntDescription hunt_modification = EmptyString ->
  State hunt_modification <> ARCHIVED ->
  State hunt_modification <> RUNNING ->
  run (ModifyHunt_mutator env hunt_modification user) (h, w)
  = (returns None, (set_State STOPPED h, w)).
Proof.
  intros Hs Hd Ha Hr. unfold run, ModifyHunt_mutator. go_exec; done.
Qed.

Lemma ModifyHunt_mutator_defaults_to_STOPPED_witness :
  run (ModifyHunt_mutator demo_env (desired "H.1" PAUSED) "admin")
    (mirrored "H.1" 1 ARCHIVED false, demo_world)
  = (returns None,
     (set_State STOPPED (mirrored "H.1" 1 ARCHIVED false), demo_world)).
Proof.
  apply (ModifyHunt_mutator_defaults_to_STOPPED demo_env
           (desired "H.1" PAUSED) "admin"
           (mirrored "H.1" 1 ARCHIVED false) demo_world (mkHuntStats false));
    [reflexivity | reflexivity | discriminate | discriminate].
Defined.

(** C10, as the claim has it, fails: for a hunt without [Stats] the same
    request is answered with an error and the state stays as it is. *)
Lemma ModifyHunt_mutator_rejects_hunt_without_stats :
  let h := set_Stats None (mirrored "H.1" 1 PAUSED false) in
  let request := desired "H.1" PAUSED in
  HuntDescription request = EmptyString /\
  State request <> ARCHIVED /\ State request <> RUNNING /\
  run (ModifyHunt_mutator demo_env request "admin") (h, demo_world)
  = (returns (Some (errors_New "Invalid hunt")), (h, demo_world)).
Proof. repeat split; discriminate. Qed.

(** C1 on the code: the sequence of requests [RUNNING], [STOPPED],
    [ARCHIVED] on a [PAUSED] hunt succeeds at each step and leaves the hunt
    [ARCHIVED]; a further request with desired state [RUNNING] takes the
    archived hunt back to [RUNNING], and [ModifyHunt] returns no error. *)
Theorem ModifyHunt_restarts_archived_hunt :
  let w := with_mirror [mirrored "H.1" 1 PAUSED false] demo_world in
  let archived :=
    ModifyHunt_each demo_env "admin"
      [ desired "H.1" RUNNING; desired "H.1" STOPPED;
        desired "H.1" ARCHIVED ] w in
  let res :=
    run (ModifyHunt demo_env (desired "H.1" RUNNING) "admin")
      (snd archived) in
  fst archived = [returns None; returns None; returns None] /\
  State <$> mirror_lookup (snd archived) "H.1" = Some ARCHIVED /\
  fst res = returns None /\
  State <$> mirror_lookup (snd res) "H.1" = Some RUNNING.
Proof. repeat split; vm_compute; reflexivity. Qed.

(** ** [sort.Slice] *)

Section Sorting.
Context {A : Type} (less : A -> A -> bool).

Lemma insert_by_Permutation x l : insert_by less x l ≡ₚ x :: l.
Proof.
  induction l as [|y l IH]; simpl; [done|].
  destruct (less x y); [done|]. rewrite IH. apply Permutation_swap.
Qed.

Lemma sorted_by_Permutation l : sorted_by less l ≡ₚ l.
Proof.
  induction l as [|x l IH]; simpl; [done|].
  by rewrite insert_by_Permutation, IH.
Qed.

(** [before i j]: [less] does not put [j] in front of [i]. *)
Variable before : A -> A -> Prop.
Hypothesis less_before : forall x y, less x y = true -> before x y.
Hypothesis not_less_before : forall x y, less x y = false -> before y x.

Lemma insert_by_Sorted x l :
  Sorted before l -> Sorted before (insert_by less x l).
Proof.
  induction 1 as [|y l Hl IH Hy]; simpl; [by repeat constructor|].
  destruct (less x y) eqn:E.
  - constructor; [by constructor|]. constructor. by apply less_before.
  - constructor; [done|].
    destruct l as [|z l]; simpl in *.
    + constructor. by apply not_less_before.
    + destruct (less x z); constructor;
        [by apply not_less_before | by inversion Hy].
Qed.

Lemma sorted_by_Sorted l : Sorted before (sorted_by less l).
Proof.
  induction l; simpl; [constructor | by apply insert_by_Sorted].
Qed.
End Sorting.

Lemma sorted_by_newest_first l : Sorted newest_first (sorted_by newer l).
Proof.
  apply sorted_by_Sorted; unfold newer, newest_first; intros x y H.
  - apply bool_decide_eq_true_1 in H. lia.
  - apply bool_decide_eq_false_1 in H. lia.
Qed.

(** ** [ListHunts] *)

Lemma ListHunts_callback_run in_ hunt result :
  run (ListHunts_callback in_ hunt) result
  = if bool_decide (len (Items result) < Offset in_) then (None, result)
    else if bool_decide (len (Items result) >= uint64 (Offset in_ + Count in_))
         then (Some STOP_ITERATION, result)
         else if listed in_ hunt
              then (None, mkListHuntsResponse (append (Items result) [hunt]))
              else (None, result).
Proof.
  unfold run, ListHunts_callback, listed. go_unfold. cbn.
  repeat case_bool_decide; cbn; try reflexivity;
    destruct (IncludeArchived in_); reflexivity.
Qed.

Lemma items_append {A} (s : slice A) (x : A) :
  items (append s [x]) = items s ++ [x].
Proof. by destruct s. Qed.

Section Pages.
Variable in_ : ListHuntsRequest.

Local Abbreviation fn := (fun hunt => run (ListHunts_callback in_ hunt)).

(** With a positive offset the callback returns on line 223 for every
    hunt: the answer never grows. *)
Lemma range_positive_offset l :
  0 < Offset in_ ->
  range_until_error fn l (mkListHuntsResponse None)
  = (None, mkListHuntsResponse None).
Proof.
  intros Hoff. induction l as [|hunt l IH]; simpl; [done|].
  rewrite ListHunts_callback_run.
  rewrite bool_decide_eq_true_2 by (simpl; unfold len; simpl; lia).
  exact IH.
Qed.

(** With offset zero the answer is filled with the hunts that match until
    it holds [Count] of them. *)
Lemma range_first_page l result :
  Offset in_ = 0 -> 0 <= Count in_ < 2 ^ 64 ->
  len (Items result) <= Count in_ ->
  let res := range_until_error fn l result in
  (fst res = None \/ fst res = Some STOP_ITERATION) /\
  items (Items (snd res))
  = take (Z.to_nat (Count in_))
      (items (Items result) ++ List.filter (listed in_) l).
Proof.
  intros Hoff Hcount. revert result.
  assert (Hu : uint64 (Offset in_ + Count in_) = Count in_).
  { rewrite Hoff. unfold uint64. rewrite Z.mod_small; lia. }
  induction l as [|hunt l IH]; intros result Hlen; simpl.
  - split; [by left|]. rewrite app_nil_r, take_ge; [done|].
    unfold len in Hlen. lia.
  - rewrite ListHunts_callback_run, Hu, Hoff.
    rewrite bool_decide_eq_false_2 by (unfold len; lia).
    case_bool_decide as Hfull.
    + simpl. split; [by right|].
      rewrite take_app_le by (unfold len in *; lia).
      rewrite take_ge; [done|]. unfold len in *; lia.
    + destruct (listed in_ hunt) eqn:Hlisted.
      * specialize (IH (mkListHuntsResponse (append (Items result) [hunt]))).
        simpl in IH. rewrite items_append in IH.
        rewrite <- (assoc_L (++)) in IH. simpl in IH. apply IH.
        unfold len in *. rewrite items_append, length_app. simpl. lia.
      * apply IH. done.
Qed.
End Pages.

Section ListHuntsPages.
Variables (env : Env) (in_ : ListHuntsRequest) (w : World)
  (d : HuntDispatcher).
Hypothesis Hd : dispatcher w = Some d.

(** Any page but the first is empty. *)
Lemma ListHunts_positive_offset :
  0 < Offset in_ ->
  ListHunts env in_ w = (Some (mkListHuntsResponse None), None).
Proof.
  intros Hoff. unfold ListHunts, ApplyFuncOnHunts. rewrite Hd.
  by rewrite range_positive_offset.
Qed.

(** The first page: the first [Count] hunts that match, in the order of
    iteration, then sorted. *)
Lemma ListHunts_first_page :
  Offset in_ = 0 -> 0 <= Count in_ < 2 ^ 64 ->
  exists result,
    ListHunts env in_ w = (Some result, None) /\
    items (Items result)
    = sorted_by newer
        (take (Z.to_nat (Count in_))
           (List.filter (listed in_) (range_hunts env (hunts d)))).
Proof.
  intros Hoff Hcount. unfold ListHunts, ApplyFuncOnHunts. rewrite Hd.
  pose proof (range_first_page in_ (range_hunts env (hunts d))
                (mkListHuntsResponse None) Hoff Hcount) as Hpage.
  simpl in Hpage.
  destruct (range_until_error _ _ _) as [err result].
  destruct Hpage as [Herr Hitems]; [unfold len; simpl; lia|].
  simpl in Herr, Hitems. eexists. split.
  - f_equal. destruct Herr as [-> | ->]; reflexivity.
  - simpl. rewrite <- Hitems. by destruct (Items result).
Qed.
End ListHuntsPages.

(** C7, as the code has it: from a mirror of five hunts, none archived,
    [ListHunts(offset=0, count=2)] returns the two hunts that the iteration
    over the mirror yields first, whatever their creation times, ordered
    newest first: the answer is sorted after it has been collected. *)
Theorem ListHunts_first_two_iterated
  (env : Env) (w : World) (d : HuntDispatcher) (h1 h2 h3 h4 h5 : Hunt) :
  dispatcher w = Some d ->
  range_hunts env (hunts d) = [h1; h2; h3; h4; h5] ->
  Forall (fun h => State h <> ARCHIVED) [h1; h2; h3; h4; h5] ->
  exists page,
    ListHunts env (mkListHuntsRequest 0 2 false) w
    = (Some (mkListHuntsResponse (Some page)), None) /\
    page ≡ₚ [h1; h2] /\
    Sorted newest_first page.
Proof.
  intros Hd Horder Hstates.
  destruct (ListHunts_first_page env (mkListHuntsRequest 0 2 false) w d Hd)
    as (result & Hres & Hitems); [done | simpl; lia |].
  rewrite Horder in Hitems.
  assert (Hl : forall h, State h <> ARCHIVED ->
                 listed (mkListHuntsRequest 0 2 false) h = true).
  { intros h Hh. unfold listed. simpl. by rewrite bool_decide_eq_false_2. }
  inversion_clear Hstates as [|? ? H1 Hrest].
  inversion_clear Hrest as [|? ? H2 _].
  assert (Hpage : take (Z.to_nat 2)
                    (List.filter (listed (mkListHuntsRequest 0 2 false))
                       [h1; h2; h3; h4; h5]) = [h1; h2]).
  { simpl. by rewrite (Hl h1 H1), (Hl h2 H2). }
  cbn [Count] in Hitems. rewrite Hpage in Hitems. clear Hpage.
  destruct result as [[page|]];
    [ change (page = sorted_by newer [h1; h2]) in Hitems
    | change ([] = sorted_by newer [h1; h2]) in Hitems ].
  - exists page. split; [done|]. rewrite Hitems. split.
    + apply sorted_by_Permutation.
    + apply sorted_by_newest_first.
  - apply (f_equal length) in Hitems.
    pose proof (Permutation_length (sorted_by_Permutation newer [h1; h2])) as L.
    rewrite <- Hitems in L. discriminate L.
Qed.

(** The order that [demo_env] picks is an iteration over the mirror. *)
Lemma demo_env_ranges_over_mirror (m : gmap string Hunt) :
  range_hunts demo_env m ≡ₚ (map_to_list m).*2.
Proof. apply sorted_by_Permutation. Qed.

Lemma ListHunts_first_two_iterated_witness :
  exists page,
    ListHunts demo_env (mkListHuntsRequest 0 2 false)
      (with_mirror five_hunts demo_world)
    = (Some (mkListHuntsResponse (Some page)), None) /\
    page ≡ₚ [mirrored "H.1" 1 PAUSED false; mirrored "H.2" 2 RUNNING false] /\
    Sorted newest_first page.
Proof.
  apply (ListHunts_first_two_iterated demo_env
           (with_mirror five_hunts demo_world)
           (mkHuntDispatcher (mirror_of five_hunts))
           (mirrored "H.1" 1 PAUSED false) (mirrored "H.2" 2 RUNNING false)
           (mirrored "H.3" 3 PAUSED false) (mirrored "H.4" 4 STOPPED false)
           (mirrored "H.5" 5 RUNNING false)).
  - reflexivity.
  - vm_compute. reflexivity.
  - repeat constructor; discriminate.
Defined.

(** C7, as the claim has it, fails: the mirror holds five hunts, none
    archived, created at 1 < 2 < 3 < 4 < 5; the iteration yields them
    oldest first; [ListHunts(offset=0, count=2)] returns the hunts created
    at 2 and 1, not those created at 5 and 4. *)
Lemma ListHunts_first_two_not_newest :
  let m := mirror_of five_hunts in
  (map_to_list m).*2 ≡ₚ five_hunts /\
  range_hunts demo_env m = five_hunts /\
  CreateTime <$> five_hunts = [1; 2; 3; 4; 5] /\
  Forall (fun h => State h <> ARCHIVED) five_hunts /\
  ListHunts demo_env (mkListHuntsRequest 0 2 false)
    (with_mirror five_hunts demo_world)
  = (Some (mkListHuntsResponse
             (Some [mirrored "H.2" 2 RUNNING false;
                    mirrored "H.1" 1 PAUSED false])), None) /\
  [mirrored "H.2" 2 RUNNING false; mirrored "H.1" 1 PAUSED false]
  <> [mirrored "H.5" 5 RUNNING false; mirrored "H.4" 4 STOPPED false].
Proof.
  intros m.
  assert (Horder : range_hunts demo_env m = five_hunts)
    by (vm_compute; reflexivity).
  split; [by rewrite <- Horder, demo_env_ranges_over_mirror|].
  split; [exact Horder|]. split; [reflexivity|].
  split; [repeat constructor; discriminate|].
  split; [vm_compute; reflexivity | discriminate].
Qed.

(** C2 on the code: with offset 1 the callback returns on line 223 for
    every hunt, because the answer it measures never grows; the page is
    empty, where skipping one match and collecting two gives the hunts
    created at 2 and 3. *)
Theorem ListHunts_second_page_is_empty :
  let in_ := mkListHuntsRequest 1 2 false in
  ListHunts demo_env in_ (with_mirror five_hunts demo_world)
  = (Some (mkListHuntsResponse None), None) /\
  ListHunts_spec (range_hunts demo_env (mirror_of five_hunts)) in_
  = [mirrored "H.2" 2 RUNNING false; mirrored "H.3" 3 PAUSED false].
Proof. split; vm_compute; reflexivity. Qed.

(** * More of the code *)

(** ** [CreateHunt]: the path to the data store *)

Lemma dispatcher_Refresh_frame (env : Env) (w : World) :
  let w' := snd (dispatcher_Refresh env w) in
  fst (dispatcher_Refresh env w) = Refresh env /\
  entropy w' = entropy w /\ ticks w' = ticks w /\
  writes w' = writes w /\ notifications w' = notifications w /\
  refreshes w' = S (refreshes w) /\ journal w' = journal w.
Proof. unfold dispatcher_Refresh. by destruct (Refresh env). Qed.

Lemma dispatcher_Refresh_mirror (env : Env) (w : World) :
  dispatcher (snd (dispatcher_Refresh env w))
  = match Refresh env with
    | Some _ => dispatcher w
    | None =>
        (fun d => mkHuntDispatcher (HuntStore_hunts env d w)) <$> dispatcher w
    end.
Proof. unfold dispatcher_Refresh. by destruct (Refresh env). Qed.

Lemma bind_inl {S R A B} (c : Go S R A) (k : A -> Go S R B) s a s' :
  c s = (inl a, s') -> (c ≫= k) s = k a s'.
Proof. intros H. unfold mbind, Go_bind. by rewrite H. Qed.

Section CreateHuntExact.
Variable env : Env.
Implicit Types (h : Hunt) (w : World) (r : ArtifactCollectorArgs).

Lemma CreateHunt_defaults_run h w :
  CreateHunt_defaults env (h, w) = (inl tt, with_defaults env (h, w)).
Proof.
  unfold CreateHunt_defaults, with_defaults.
  destruct (GetNewHuntId env w) as [id w'] eqn:Hid.
  go_unfold. cbn. destruct (Stats h); cbn;
    case_bool_decide; cbn; rewrite ?Hid; reflexivity.
Qed.

Lemma CreateHunt_validate_run h w r l :
  StartRequest h = Some r -> Artifacts r = Some l ->
  CreateHunt_validate (h, w) = (inl tt, (h, w)).
Proof.
  intros Hr Hl. unfold CreateHunt_validate. go_unfold. cbn.
  by rewrite Hr, Hl.
Qed.

Lemma CreateHunt_times_run h w :
  ~ expiry env w h < created env w ->
  CreateHunt_times env (h, w) = (inl tt, with_times env (h, w)).
Proof.
  intros Hexp. unfold CreateHunt_times, with_times, expiry, created in *.
  go_unfold. cbn. case_bool_decide; cbn;
    rewrite bool_decide_eq_false_2 by done; reflexivity.
Qed.

Lemma CreateHunt_artifacts_run h w r :
  StartRequest h = Some r ->
  CreateHunt_artifacts env (h, w) = (inl tt, (with_artifacts env r h, w)).
Proof.
  intros Hr. unfold CreateHunt_artifacts, with_artifacts. go_unfold. cbn.
  rewrite Hr. cbn. rewrite collect_sources_run. reflexivity.
Qed.

Lemma CreateHunt_compile_run h w r :
  StartRequest h = Some r ->
  GetRepositoryManager env = None -> GetGlobalRepository env = None ->
  GetLauncher env = None -> snd (CompileCollectorArgs env r) = None ->
  CreateHunt_compile env (h, w) = (inl tt, (with_compiled env r h, w)).
Proof.
  intros Hr Hm Hg Hl Hc. unfold CreateHunt_compile, with_compiled.
  rewrite Hm, Hg, Hl. go_unfold. cbn. rewrite Hr. cbn.
  destruct (CompileCollectorArgs env r) as [compiled err].
  simpl in Hc. subst err. reflexivity.
Qed.

Lemma CreateHunt_state_run h w :
  ~ (State h = RUNNING /\ GetNotifier env = true /\
     is_Some (NotifyByRegex env "^[Cc]\.")) ->
  CreateHunt_state env (h, w) = (inl tt, with_state env (h, w)).
Proof.
  intros Hn. unfold CreateHunt_state, with_state. go_unfold. cbn.
  destruct (decide (State h = UNSET)); [reflexivity|].
  destruct (decide (State h = RUNNING)); [|reflexivity]. cbn.
  destruct (GetNotifier env); [|reflexivity]. cbn.
  destruct (NotifyByRegex env "^[Cc]\.") eqn:E; [|reflexivity].
  exfalso. apply Hn. eauto.
Qed.

Lemma CreateHunt_persist_run (s : Hunt * World) :
  run (CreateHunt_persist env) s = persisted env s.
Proof.
  destruct s as [h w].
  unfold run, CreateHunt_persist, persisted. go_unfold. cbn.
  destruct (SetSubject env _ _); cbn; [reflexivity|].
  destruct (dispatcher w) eqn:Hd; cbn; [|reflexivity].
  unfold dispatcher_Refresh. by destruct (Refresh env).
Qed.

(** What the first blocks leave as they found it. *)
Lemma with_defaults_keeps h w :
  let s := with_defaults env (h, w) in
  StartRequest (fst s) = StartRequest h /\ State (fst s) = State h /\
  Expires (fst s) = Expires h /\ ticks (snd s) = ticks w.
Proof.
  unfold with_defaults. rewrite GetNewHuntId_eq.
  destruct (Stats h); cbn; case_bool_decide; cbn; auto.
Qed.

Lemma with_times_keeps h w :
  let s := with_times env (h, w) in
  StartRequest (fst s) = StartRequest h /\ State (fst s) = State h.
Proof. unfold with_times. case_bool_decide; cbn; auto. Qed.
End CreateHuntExact.

(** When no step fails before it, line 196 is reached in the state
    [prepared], and the rest of the function is [persisted]. *)
Lemma CreateHunt_run_prepared (env : Env) (hunt : Hunt) (w : World)
  (r : ArtifactCollectorArgs) :
  ~ fails_before_write env w hunt ->
  StartRequest hunt = Some r ->
  run (CreateHunt env) (hunt, w) = persisted env (prepared env r (hunt, w)).
Proof.
  intros Hok Hr.
  assert (Hdb : GetDB env = None).
  { destruct (GetDB env) eqn:E; [|done]. destruct Hok. by eapply no_data_store. }
  assert (Hl : exists l, Artifacts r = Some l).
  { destruct (Artifacts r) eqn:E; [by eauto|].
    destruct Hok. by eapply no_artifacts. }
  destruct Hl as [l Hl].
  assert (Hexp : ~ expiry env w hunt < created env w).
  { intros H. apply Hok. by apply expiry_in_the_past. }
  assert (Hm : GetRepositoryManager env = None).
  { destruct (GetRepositoryManager env) eqn:E; [|done].
    destruct Hok. by eapply no_repository_manager. }
  assert (Hg : GetGlobalRepository env = None).
  { destruct (GetGlobalRepository env) eqn:E; [|done].
    destruct Hok. by eapply no_global_repository. }
  assert (Hla : GetLauncher env = None).
  { destruct (GetLauncher env) eqn:E; [|done].
    destruct Hok. by eapply no_launcher. }
  assert (Hc : snd (CompileCollectorArgs env r) = None).
  { destruct (snd (CompileCollectorArgs env r)) eqn:E; [|done].
    destruct Hok. by eapply compilation_fails. }
  assert (Hn : ~ (State hunt = RUNNING /\ GetNotifier env = true /\
                  is_Some (NotifyByRegex env "^[Cc]\."))).
  { intros (? & ? & [e ?]). apply Hok. by eapply notifier_fails. }
  unfold prepared.
  pose proof (with_defaults_keeps env hunt w) as (Hr1 & Hs1 & He1 & Ht1).
  destruct (with_defaults env (hunt, w)) as [h1 w1] eqn:E1.
  cbn [fst snd] in Hr1, Hs1, He1, Ht1.
  pose proof (with_times_keeps env h1 w1) as (Hr2 & Hs2).
  destruct (with_times env (h1, w1)) as [h2 w2] eqn:E2.
  cbn [fst snd] in Hr2, Hs2.
  rewrite <- CreateHunt_persist_run.
  unfold run at 1, CreateHunt. rewrite Hdb.
  erewrite bind_inl by reflexivity.
  erewrite bind_inl by (rewrite CreateHunt_defaults_run, E1; reflexivity).
  erewrite bind_inl
    by (apply (CreateHunt_validate_run h1 w1 r l); [congruence | exact Hl]).
  erewrite bind_inl.
  2:{ rewrite CreateHunt_times_run, E2; [reflexivity|].
      unfold expiry, created in *. by rewrite He1, Ht1. }
  erewrite bind_inl
    by (apply (CreateHunt_artifacts_run env h2 w2 r); congruence).
  erewrite bind_inl.
  2:{ apply (CreateHunt_compile_run env _ _ r); [|done..].
      unfold with_artifacts. simpl. congruence. }
  erewrite bind_inl.
  2:{ apply CreateHunt_state_run. unfold with_compiled, with_artifacts.
      simpl. by rewrite Hs2, Hs1. }
  reflexivity.
Qed.

Arguments with_defaults : simpl never.
Arguments with_times : simpl never.
Arguments with_state : simpl never.
Arguments prepared : simpl never.
Arguments persisted : simpl never.

(** Whether a step fails before the write can be told from the run. *)
Lemma fails_before_write_dec (env : Env) (w : World) (hunt : Hunt) :
  fails_before_write env w hunt \/ ~ fails_before_write env w hunt.
Proof.
  pose (D := fails_before_write env w hunt \/ ~ fails_before_write env w hunt).
  pose proof (CreateHunt_reaches_write env hunt w (mret tt)
                (fun _ _ => D) (fun _ _ => D)
                (fun _ _ _ Hf => or_introl Hf)
                (fun _ _ Hok => or_intror Hok)) as H.
  unfold wp in H.
  match type of H with
  | let (_, _) := ?c in _ => destruct c as [[?|?] ?]; exact H
  end.
Qed.

Lemma CreateHunt_failure_run (env : Env) (w : World) (hunt : Hunt) :
  fails_before_write env w hunt ->
  early_error w (fst (run (CreateHunt env) (hunt, w)))
    (snd (run (CreateHunt env) (hunt, w))).
Proof.
  intros Hfail.
  pose (P := fun res : outcome (string * option error) * (Hunt * World) =>
               early_error w (fst res) (snd res)).
  change (P (run (CreateHunt env) (hunt, w))).
  apply wp_run.
  exact (CreateHunt_reaches_write env hunt w (CreateHunt_persist env)
           (fun r s' => P (r, s')) (fun r s' => P (r, s'))
           (fun r s' H _ => H)
           (fun s' _ Hok => False_ind _ (Hok Hfail))).
Qed.

Lemma start_request_of_success (env : Env) (w : World) (hunt : Hunt) :
  ~ fails_before_write env w hunt ->
  exists r l, StartRequest hunt = Some r /\ Artifacts r = Some l.
Proof.
  intros Hok. destruct (StartRequest hunt) as [r|] eqn:Hr.
  - destruct (Artifacts r) as [l|] eqn:Hl; [by eauto|].
    destruct Hok. by eapply no_artifacts.
  - destruct Hok. by apply no_start_request.
Qed.

(** The record with which line 196 is reached. *)
Lemma prepared_record (env : Env) (r : ArtifactCollectorArgs)
  (hunt : Hunt) (w : World) :
  let h' := fst (prepared env r (hunt, w)) in
  HuntId h' = (if bool_decide (HuntId hunt = EmptyString)
               then fst (GetNewHuntId env w) else HuntId hunt) /\
  HuntDescription h' = HuntDescription hunt /\
  State h' = (if decide (State hunt = UNSET) then PAUSED else State hunt) /\
  CreateTime h' = created env w /\
  StartTime h' = (if decide (State hunt = RUNNING) then created env w
                  else StartTime hunt) /\
  Expires h' = expiry env w hunt /\
  StartRequest h' = Some (mkArtifactCollectorArgs (Artifacts r)
                            (append (CompiledCollectorArgs r)
                               (fst (CompileCollectorArgs env r)))) /\
  HuntArtifacts h' = Artifacts r /\
  ArtifactSources h' = sources_of env (items (Artifacts r)) (Some []) /\
  Stats h' = Some (default (mkHuntStats false) (Stats hunt)).
Proof.
  unfold prepared, with_times, with_defaults, with_state, with_compiled,
    with_artifacts, expiry, created.
  rewrite GetNewHuntId_eq.
  destruct (Stats hunt) eqn:Hst; cbn;
    destruct (bool_decide (HuntId hunt = EmptyString)); cbn;
    destruct (bool_decide (Expires hunt = 0)); cbn;
    destruct (decide (State hunt = UNSET)) as [Hu|Hu]; cbn;
    destruct (decide (State hunt = RUNNING)) as [Hr|Hr]; cbn;
    try (rewrite Hu in Hr; discriminate Hr);
    repeat split; try reflexivity; try assumption.
Qed.

(** The world in which line 196 is reached. *)
Lemma prepared_world (env : Env) (r : ArtifactCollectorArgs)
  (hunt : Hunt) (w : World) :
  let w' := snd (prepared env r (hunt, w)) in
  entropy w' = (if bool_decide (HuntId hunt = EmptyString)
                then drop 4 (entropy w) else entropy w) /\
  dispatcher w' = dispatcher w /\
  writes w' = writes w /\
  notifications w' =
    (if decide (State hunt = RUNNING)
     then if GetNotifier env then "^[Cc]\." :: notifications w
          else notifications w
     else notifications w) /\
  refreshes w' = refreshes w /\
  journal w' = journal w.
Proof.
  unfold prepared, with_times, with_defaults, with_state, with_compiled,
    with_artifacts.
  rewrite GetNewHuntId_eq.
  destruct (Stats hunt); cbn;
    destruct (bool_decide (HuntId hunt = EmptyString)); cbn;
    destruct (bool_decide (Expires hunt = 0)); cbn;
    destruct (decide (State hunt = UNSET)) as [Hu|Hu]; cbn;
    destruct (decide (State hunt = RUNNING)) as [Hr|Hr]; cbn;
    try (rewrite Hu in Hr; discriminate Hr);
    destruct (GetNotifier env); cbn;
    repeat split; try reflexivity.
Qed.

Lemma persisted_writes (env : Env) (s : Hunt * World) :
  writes (snd (snd (persisted env s)))
  = (HuntPath env (HuntId (fst s)), fst s) :: writes (snd s).
Proof.
  destruct s as [h w]. unfold persisted.
  destruct (SetSubject env _ _); [reflexivity|].
  destruct (dispatcher w); [|reflexivity]. simpl.
  by pose proof (dispatcher_Refresh_frame env
                   (set_writes ((HuntPath env (HuntId h), h) :: writes w) w))
    as (_ & _ & _ & -> & _).
Qed.

Lemma persisted_hunt (env : Env) (s : Hunt * World) :
  fst (snd (persisted env s)) = fst s.
Proof.
  destruct s as [h w]. unfold persisted.
  destruct (SetSubject env _ _); [reflexivity|].
  destruct (dispatcher w); reflexivity.
Qed.

Lemma not_cons_self {A} (x : A) (l : list A) : l <> x :: l.
Proof. intros H. apply (f_equal length) in H. simpl in H. lia. Qed.

(** X1: every record that [CreateHunt] hands to the data store is written
    under the path of its own identifier and is complete: it has [Stats],
    a resolved state, a creation time that is not after its expiry, the
    start time of a running hunt, the artifacts of the request, and the
    compiled form appended to the request. *)
Theorem CreateHunt_written_record
  (env : Env) (w : World) (hunt : Hunt) (path : string) (record : Hunt) :
  writes (snd (snd (run (CreateHunt env) (hunt, w))))
  = (path, record) :: writes w ->
  path = HuntPath env (HuntId record) /\
  is_Some (Stats record) /\
  State record <> UNSET /\
  CreateTime record <= Expires record /\
  (State record = RUNNING -> StartTime record = CreateTime record) /\
  exists r l,
    StartRequest hunt = Some r /\ Artifacts r = Some l /\
    HuntArtifacts record = Some l /\
    StartRequest record
    = Some (mkArtifactCollectorArgs (Some l)
              (append (CompiledCollectorArgs r)
                 (fst (CompileCollectorArgs env r)))).
Proof.
  intros Hw.
  destruct (fails_before_write_dec env w hunt) as [Hfail|Hok].
  { destruct (CreateHunt_failure_run env w hunt Hfail) as [_ Hsame].
    rewrite Hsame in Hw. by apply not_cons_self in Hw. }
  destruct (start_request_of_success env w hunt Hok) as (r & l & Hr & Hl).
  rewrite (CreateHunt_run_prepared env hunt w r Hok Hr) in Hw.
  rewrite persisted_writes in Hw.
  pose proof (prepared_record env r hunt w)
    as (Hid & _ & Hst & Hct & Hstart & Hexp & Hreq & Hart & _ & Hstats).
  pose proof (prepared_world env r hunt w) as (_ & _ & Hwr & _).
  cbv zeta in *. rewrite Hwr in Hw. injection Hw as <- <-.
  split; [reflexivity|]. split; [by rewrite Hstats|].
  split.
  { rewrite Hst. destruct (decide (State hunt = UNSET)); [discriminate|done]. }
  split.
  { rewrite Hct, Hexp. apply Z.le_ngt. intros Hlt.
    apply Hok. by apply expiry_in_the_past. }
  split.
  { rewrite Hst, Hstart, Hct.
    destruct (decide (State hunt = UNSET)); [discriminate|].
    intros Hrun. by destruct (decide (State hunt = RUNNING)). }
  exists r, l. by rewrite Hart, Hreq, Hl.
Qed.

(** X2: when [CreateHunt] returns an identifier, a record with that
    identifier has been written under its path, the data store has
    accepted it, the dispatcher has been refreshed once, and the error
    returned beside the identifier is the one of the refresh. *)
Theorem CreateHunt_returned_id
  (env : Env) (w : World) (hunt : Hunt) (id : string) (err : option error) :
  fst (run (CreateHunt env) (hunt, w)) = returns (id, err) ->
  id <> EmptyString ->
  let w' := snd (snd (run (CreateHunt env) (hunt, w))) in
  exists record,
    writes w' = (HuntPath env id, record) :: writes w /\
    HuntId record = id /\
    SetSubject env (HuntPath env id) record = None /\
    err = Refresh env /\
    refreshes w' = S (refreshes w).
Proof.
  intros Hres Hid w'. subst w'.
  destruct (fails_before_write_dec env w hunt) as [Hfail|Hok].
  { destruct (CreateHunt_failure_run env w hunt Hfail) as [[e He] _].
    rewrite He in Hres. injection Hres as <- _. done. }
  destruct (start_request_of_success env w hunt Hok) as (r & l & Hr & Hl).
  rewrite (CreateHunt_run_prepared env hunt w r Hok Hr) in *.
  pose proof (prepared_world env r hunt w) as (_ & _ & Hwr & _ & Hrf & _).
  cbv zeta in *.
  destruct (prepared env r (hunt, w)) as [h' w1]. simpl in Hwr, Hrf.
  unfold persisted in *.
  destruct (SetSubject env (HuntPath env (HuntId h')) h') eqn:Hset.
  { simpl in Hres. injection Hres as <- _. done. }
  destruct (dispatcher w1); simpl in Hres; [|discriminate].
  injection Hres as <- <-. exists h'. simpl.
  pose proof (dispatcher_Refresh_frame env
                (set_writes ((HuntPath env (HuntId h'), h') :: writes w1) w1))
    as (_ & _ & _ & Hw' & _ & Hr' & _).
  cbv zeta in Hw', Hr'. rewrite Hw', Hr'. simpl.
  by rewrite Hwr, Hrf.
Qed.

(** ** [CreateHunt]: what a call can touch *)

Lemma quiet_refl (s : Hunt * World) : quiet s s.
Proof. unfold quiet. tauto. Qed.

Lemma quiet_trans (s1 s2 s3 : Hunt * World) :
  quiet s1 s2 -> quiet s2 s3 -> quiet s1 s3.
Proof.
  unfold quiet.
  intros (Ha & Hb & Hc & Hd & He & Hf & Hg) (Ha' & Hb' & Hc' & Hd' & He' & Hf' & Hg').
  repeat split; try congruence.
  - destruct (Hg H) as [Hi _]. destruct Hg' as [Hi' _]; congruence.
  - destruct (Hg H) as [Hi Hj]. destruct Hg' as [_ Hj']; congruence.
Qed.

Section CreateHuntQuiet.
Variable env : Env.
Implicit Types (h : Hunt) (w : World).

Lemma CreateHunt_defaults_quiet h w :
  wp (CreateHunt_defaults env) (h, w)
    (fun _ s' => quiet (h, w) s') (fun _ s' => quiet (h, w) s').
Proof.
  unfold wp, CreateHunt_defaults, quiet. go_exec;
    rewrite ?GetNewHuntId_eq; cbn; tauto.
Qed.

Lemma CreateHunt_validate_quiet h w :
  wp (CreateHunt_validate) (h, w)
    (fun _ s' => quiet (h, w) s') (fun _ s' => quiet (h, w) s').
Proof. unfold wp, CreateHunt_validate, quiet. go_exec; tauto. Qed.

Lemma CreateHunt_times_quiet h w :
  wp (CreateHunt_times env) (h, w)
    (fun _ s' => quiet (h, w) s') (fun _ s' => quiet (h, w) s').
Proof. unfold wp, CreateHunt_times, quiet. go_exec; tauto. Qed.

Lemma CreateHunt_artifacts_quiet h w :
  wp (CreateHunt_artifacts env) (h, w)
    (fun _ s' => quiet (h, w) s') (fun _ s' => quiet (h, w) s').
Proof.
  unfold wp, CreateHunt_artifacts, quiet. go_exec;
    rewrite ?collect_sources_run; cbn; tauto.
Qed.

Lemma CreateHunt_compile_quiet h w :
  wp (CreateHunt_compile env) (h, w)
    (fun _ s' => quiet (h, w) s') (fun _ s' => quiet (h, w) s').
Proof.
  unfold wp, CreateHunt_compile, quiet. go_exec; try tauto.
  all: destruct (CompileCollectorArgs env _) as [compiled err];
    go_exec; tauto.
Qed.

(** Up to line 176 nothing outside the record is touched, on every path. *)
Lemma CreateHunt_quiet_until_state {A} (hunt : Hunt) (w : World)
  (rest : Go (Hunt * World) (outcome (string * option error)) A)
  (Q : A -> Hunt * World -> Prop)
  (E : outcome (string * option error) -> Hunt * World -> Prop) :
  (forall r s', quiet (hunt, w) s' -> E r s') ->
  (forall s', quiet (hunt, w) s' -> wp rest s' Q E) ->
  wp (return_err (GetDB env);;
      CreateHunt_defaults env;;
      CreateHunt_validate;;
      CreateHunt_times env;;
      CreateHunt_artifacts env;;
      CreateHunt_compile env;;
      rest) (hunt, w) Q E.
Proof.
  intros HE Hrest.
  apply wp_bind. destruct (GetDB env) as [e|] eqn:Hdb.
  { apply HE, quiet_refl. }
  unfold wp at 1; simpl.
  wp_seq CreateHunt_defaults_quiet; [|by auto].
  intros _ [h1 w1] H1.
  wp_seq CreateHunt_validate_quiet;
    [|by intros; eapply HE, quiet_trans].
  intros _ [h2 w2] H2. pose proof (quiet_trans _ _ _ H1 H2) as H12.
  wp_seq CreateHunt_times_quiet;
    [|by intros; eapply HE, quiet_trans].
  intros _ [h3 w3] H3. pose proof (quiet_trans _ _ _ H12 H3) as H13.
  wp_seq CreateHunt_artifacts_quiet;
    [|by intros; eapply HE, quiet_trans].
  intros _ [h4 w4] H4. pose proof (quiet_trans _ _ _ H13 H4) as H14.
  wp_seq CreateHunt_compile_quiet;
    [|by intros; eapply HE, quiet_trans].
  intros _ [h5 w5] H5. apply Hrest. by eapply quiet_trans.
Qed.
End CreateHuntQuiet.

Lemma wp_of_run {S R} (c : Go S R R) (s : S) (P : R * S -> Prop) :
  P (run c s) -> wp c s (fun r s' => P (r, s')) (fun r s' => P (r, s')).
Proof. unfold wp, run. by destruct (c s) as [[r|r] s']. Qed.

(** The clients are told at most once, and only of a hunt that is
    created running, by a notifier that is there. *)
Lemma CreateHunt_state_touches (env : Env) (h : Hunt) (w : World) :
  let touched (s' : Hunt * World) :=
    HuntId (fst s') = HuntId h /\
    entropy (snd s') = entropy w /\ dispatcher (snd s') = dispatcher w /\
    writes (snd s') = writes w /\ refreshes (snd s') = refreshes w /\
    journal (snd s') = journal w /\
    (notifications (snd s') = notifications w \/
     State h = RUNNING /\ GetNotifier env = true /\
     notifications (snd s') = "^[Cc]\." :: notifications w) in
  wp (CreateHunt_state env) (h, w) (fun _ => touched) (fun _ => touched).
Proof.
  unfold wp, CreateHunt_state. go_exec; repeat split; auto.
Qed.

(** The last block hands the record to the store; it reloads the mirror
    only when the store has accepted the record, and the mirror that a
    reload publishes holds the record under its identifier. *)
Lemma persisted_touches (env : Env) (h : Hunt) (w : World) :
  let w' := snd (snd (persisted env (h, w))) in
  let path := HuntPath env (HuntId h) in
  entropy w' = entropy w /\ journal w' = journal w /\
  notifications w' = notifications w /\
  writes w' = (path, h) :: writes w /\
  (refreshes w' = refreshes w /\ dispatcher w' = dispatcher w \/
   refreshes w' = S (refreshes w) /\ SetSubject env path h = None /\
   match Refresh env with
   | Some _ => dispatcher w' = dispatcher w
   | None =>
       exists d', dispatcher w' = Some d' /\ hunts d' !! HuntId h = Some h
   end).
Proof.
  cbv zeta. unfold persisted.
  destruct (SetSubject env _ _) as [e|] eqn:Hstore; [by auto 10|].
  destruct (dispatcher w) as [d|] eqn:Hd; simpl; [|by auto 10].
  unfold dispatcher_Refresh.
  destruct (Refresh env) as [e|]; simpl; [by auto 10|].
  repeat split; try done. right. repeat split; try done.
  rewrite Hd. simpl. eexists. split; [reflexivity|].
  unfold HuntStore_hunts. simpl. rewrite Hstore. apply lookup_insert_eq.
Qed.

(** X3: on every path, [CreateHunt] leaves the journal alone, draws no
    random bytes when the caller supplied the identifier, notifies the
    clients at most once and only for a hunt created RUNNING with a
    notifier present, hands at most one record to the data store, under
    that record's own path, and refreshes the dispatcher at most once and
    only after the store has accepted that record.  The mirror is as it
    was unless that refresh succeeds; the mirror that a successful refresh
    publishes holds the record under its identifier.  (The refresh is the
    one the specification describes.) *)
Theorem CreateHunt_footprint (env : Env) (w : World) (hunt : Hunt) :
  let w' := snd (snd (run (CreateHunt env) (hunt, w))) in
  journal w' = journal w /\
  (HuntId hunt <> EmptyString -> entropy w' = entropy w) /\
  (notifications w' = notifications w \/
   State hunt = RUNNING /\ GetNotifier env = true /\
   notifications w' = "^[Cc]\." :: notifications w) /\
  (writes w' = writes w /\ refreshes w' = refreshes w /\
   dispatcher w' = dispatcher w \/
   exists record,
     writes w' = (HuntPath env (HuntId record), record) :: writes w /\
     (refreshes w' = refreshes w /\ dispatcher w' = dispatcher w \/
      refreshes w' = S (refreshes w) /\
      SetSubject env (HuntPath env (HuntId record)) record = None /\
      match Refresh env with
      | Some _ => dispatcher w' = dispatcher w
      | None =>
          exists d',
            dispatcher w' = Some d' /\
            hunts d' !! HuntId record = Some record
      end)).
Proof.
  pose (P := fun res : outcome (string * option error) * (Hunt * World) =>
    let w' := snd (snd res) in
    journal w' = journal w /\
    (HuntId hunt <> EmptyString -> entropy w' = entropy w) /\
    (notifications w' = notifications w \/
     State hunt = RUNNING /\ GetNotifier env = true /\
     notifications w' = "^[Cc]\." :: notifications w) /\
    (writes w' = writes w /\ refreshes w' = refreshes w /\
     dispatcher w' = dispatcher w \/
     exists record,
       writes w' = (HuntPath env (HuntId record), record) :: writes w /\
       (refreshes w' = refreshes w /\ dispatcher w' = dispatcher w \/
        refreshes w' = S (refreshes w) /\
        SetSubject env (HuntPath env (HuntId record)) record = None /\
        match Refresh env with
        | Some _ => dispatcher w' = dispatcher w
        | None =>
            exists d',
              dispatcher w' = Some d' /\
              hunts d' !! HuntId record = Some record
        end))).
  change (P (run (CreateHunt env) (hunt, w))).
  apply wp_run.
  refine (CreateHunt_quiet_until_state env hunt w
            (CreateHunt_state env;; CreateHunt_persist env)
            (fun r s' => P (r, s')) (fun r s' => P (r, s')) _ _).
  - intros r s' (Hs & Hd & Hw & Hn & Hr & Hj & Hi). unfold P. simpl.
    repeat split; auto. intros H. by destruct (Hi H).
  - intros [h5 w5] (Hs & Hd & Hw & Hn & Hr & Hj & Hi). simpl in *.
    assert (He : HuntId hunt <> EmptyString -> entropy w5 = entropy w)
      by (intros H; by destruct (Hi H)).
    clear Hi.
    wp_seq (CreateHunt_state_touches env h5 w5).
    + intros _ [h6 w6] (_ & He6 & Hd6 & Hw6 & Hr6 & Hj6 & Hn6). simpl in *.
      apply wp_of_run. rewrite CreateHunt_persist_run.
      pose proof (persisted_touches env h6 w6)
        as (He7 & Hj7 & Hn7 & Hw7 & Hmirror).
      cbv zeta in *. unfold P. cbv zeta.
      rewrite He7, Hj7, Hn7, Hw7, He6, Hj6, Hw6, Hj, Hw.
      split; [done|]. split; [done|]. split.
      { destruct Hn6 as [->|(? & ? & ->)]; [by left|].
        right. rewrite Hn. repeat split; congruence. }
      right. exists h6. split; [done|].
      destruct Hmirror as [[-> ->]|(-> & Hstore & Hm)].
      * left. split; congruence.
      * right. split; [congruence|]. split; [done|].
        destruct (Refresh env); [congruence|done].
    + intros r [h6 w6] (_ & He6 & Hd6 & Hw6 & Hr6 & Hj6 & Hn6). simpl in *.
      unfold P. cbv zeta. simpl.
      rewrite He6, Hj6, Hw6, Hr6, Hd6, Hj, Hw, Hr, Hd.
      split; [done|]. split; [done|]. split; [|by left].
      destruct Hn6 as [->|(? & ? & ->)]; [by left|].
      right. rewrite Hn. repeat split; congruence.
Qed.

Lemma CreateHunt_written_record_witness :
  let request := mkArtifactCollectorArgs (Some ["Generic.Client.Info"]) None in
  let hunt := set_State RUNNING (new_hunt (Some request)) in
  let record := fst (snd (run (CreateHunt demo_env) (hunt, demo_world))) in
  HuntPath demo_env "H.01abff10" = HuntPath demo_env (HuntId record) /\
  is_Some (Stats record) /\
  State record <> UNSET /\
  CreateTime record <= Expires record /\
  (State record = RUNNING -> StartTime record = CreateTime record) /\
  exists r l,
    StartRequest hunt = Some r /\ Artifacts r = Some l /\
    HuntArtifacts record = Some l /\
    StartRequest record
    = Some (mkArtifactCollectorArgs (Some l)
              (append (CompiledCollectorArgs r)
                 (fst (CompileCollectorArgs demo_env r)))).
Proof.
  apply (CreateHunt_written_record demo_env demo_world
           (set_State RUNNING
              (new_hunt (Some (mkArtifactCollectorArgs
                                 (Some ["Generic.Client.Info"]) None))))).
  vm_compute. reflexivity.
Defined.

Lemma CreateHunt_returned_id_witness :
  let request := mkArtifactCollectorArgs (Some ["Generic.Client.Info"]) None in
  let hunt := new_hunt (Some request) in
  let w' := snd (snd (run (CreateHunt demo_env) (hunt, demo_world))) in
  exists record,
    writes w' = [(HuntPath demo_env "H.01abff10", record)] /\
    HuntId record = "H.01abff10" /\
    SetSubject demo_env (HuntPath demo_env "H.01abff10") record = None /\
    None = Refresh demo_env /\
    refreshes w' = 1%nat.
Proof.
  apply (CreateHunt_returned_id demo_env demo_world
           (new_hunt (Some (mkArtifactCollectorArgs
                              (Some ["Generic.Client.Info"]) None)))
           "H.01abff10" None).
  - vm_compute. reflexivity.
  - discriminate.
Defined.

(** ** [CreateHunt]: the default expiry *)

Lemma int64_small (z : Z) : - 2 ^ 63 <= z < 2 ^ 63 -> int64 z = z.
Proof. intros H. unfold int64. rewrite Z.mod_small; lia. Qed.

Lemma uint64_small (z : Z) : 0 <= z < 2 ^ 64 -> uint64 z = z.
Proof. intros H. unfold uint64. rewrite Z.mod_small; lia. Qed.

Lemma week_in_micros : week = week_micros * 1000.
Proof. reflexivity. Qed.

Lemma default_expiry_after_creation (env : Env) (w : World) (hunt : Hunt) :
  Expires hunt = 0 ->
  0 <= Now env (ticks w) <= Now env (S (ticks w)) ->
  Now env (S (ticks w)) + week < 2 ^ 63 ->
  created env w + week_micros <= expiry env w hunt.
Proof.
  intros He [H0 Hmono] Hmax. unfold created, expiry.
  rewrite bool_decide_eq_true_2 by done.
  assert (Hw : 0 < week) by (vm_compute; reflexivity).
  rewrite (int64_small (Now env (ticks w))) by lia.
  rewrite (int64_small (Now env (S (ticks w)))) by lia.
  rewrite (int64_small (Now env (S (ticks w)) + week)) by lia.
  rewrite !Z.quot_div_nonneg by lia.
  assert (Hq : (Now env (S (ticks w)) + week) `div` 1000
               = Now env (S (ticks w)) `div` 1000 + week_micros).
  { rewrite week_in_micros. apply Z.div_add. lia. }
  pose proof (Z.div_le_mono _ _ 1000 ltac:(lia) Hmono) as Hle.
  pose proof (Z.div_pos _ 1000 H0 ltac:(lia)) as Hpos.
  assert (Hub : Now env (S (ticks w)) `div` 1000 + week_micros < 2 ^ 63).
  { rewrite <- Hq. apply Z.div_lt_upper_bound; lia. }
  assert (0 < week_micros) by (vm_compute; reflexivity).
  rewrite !uint64_small by lia. lia.
Qed.

(** X4: a hunt submitted without an expiry is given one seven days after
    its creation time, and is never turned down as expired: under a clock
    that is not before the Unix epoch, does not run backwards between the
    two readings and stays, seven days added, within [int64] nanoseconds,
    the lines 124-132 go on to line 134 with
    [CreateTime + 7 days <= Expires]. *)
Theorem CreateHunt_default_expiry_accepted
  (env : Env) (w : World) (hunt : Hunt) :
  Expires hunt = 0 ->
  0 <= Now env (ticks w) <= Now env (S (ticks w)) ->
  Now env (S (ticks w)) + week < 2 ^ 63 ->
  (exists s',
     CreateHunt_times env (hunt, w) = (inl tt, s') /\
     CreateTime (fst s') + week_micros <= Expires (fst s')) /\
  (forall path record,
     writes (snd (snd (run (CreateHunt env) (hunt, w))))
     = (path, record) :: writes w ->
     CreateTime record + week_micros <= Expires record).
Proof.
  intros He Hclock Hmax.
  pose proof (default_expiry_after_creation env w hunt He Hclock Hmax) as Hle.
  assert (0 < week_micros) by (vm_compute; reflexivity).
  split.
  - exists (with_times env (hunt, w)). split.
    + apply CreateHunt_times_run. lia.
    + unfold with_times. rewrite bool_decide_eq_true_2 by done. exact Hle.
  - intros path record Hw.
    destruct (fails_before_write_dec env w hunt) as [Hfail|Hok].
    { destruct (CreateHunt_failure_run env w hunt Hfail) as [_ Hsame].
      rewrite Hsame in Hw. by apply not_cons_self in Hw. }
    destruct (start_request_of_success env w hunt Hok) as (r & l & Hr & Hl).
    rewrite (CreateHunt_run_prepared env hunt w r Hok Hr) in Hw.
    rewrite persisted_writes in Hw.
    pose proof (prepared_record env r hunt w)
      as (_ & _ & _ & Hct & _ & Hexp & _).
    pose proof (prepared_world env r hunt w) as (_ & _ & Hwr & _).
    cbv zeta in *. rewrite Hwr in Hw. injection Hw as _ <-.
    by rewrite Hct, Hexp.
Qed.

Lemma CreateHunt_default_expiry_accepted_witness :
  let request := mkArtifactCollectorArgs (Some ["Generic.Client.Info"]) None in
  let hunt := new_hunt (Some request) in
  (exists s',
     CreateHunt_times demo_env (hunt, demo_world) = (inl tt, s') /\
     CreateTime (fst s') + week_micros <= Expires (fst s')) /\
  (forall path record,
     writes (snd (snd (run (CreateHunt demo_env) (hunt, demo_world))))
     = (path, record) :: writes demo_world ->
     CreateTime record + week_micros <= Expires record).
Proof.
  apply (CreateHunt_default_expiry_accepted demo_env demo_world
           (new_hunt (Some (mkArtifactCollectorArgs
                              (Some ["Generic.Client.Info"]) None)))).
  - reflexivity.
  - vm_compute. split; discriminate.
  - vm_compute. reflexivity.
Defined.

(** ** The source list of a hunt *)

Lemma append_sources {A B} (f : A -> B) (l : list A) (acc : list B) :
  fold_left (fun acc x => append acc [f x]) l (Some acc)
  = Some (acc ++ (f <$> l)).
Proof.
  revert acc. induction l as [|x l IH]; intros acc; simpl.
  - by rewrite app_nil_r.
  - rewrite IH. by rewrite <- app_assoc.
Qed.

Lemma sources_of_source_paths (env : Env) (l : list string) (acc : list string) :
  sources_of env l (Some acc) = Some (acc ++ source_paths env l).
Proof.
  unfold sources_of, source_paths. revert acc.
  induction l as [|a l IH]; intros acc; simpl.
  - by rewrite app_nil_r.
  - rewrite (append_sources (path_Join env a)). rewrite IH.
    by rewrite <- app_assoc.
Qed.

Lemma GetArtifactSources_items (env : Env) (artifact : string) :
  items (GetArtifactSources env artifact)
  = match GetRepositoryManager env, GetGlobalRepository env,
          repository_Get env artifact with
    | None, None, Some artifact_obj => Name <$> Sources artifact_obj
    | _, _, _ => []
    end.
Proof.
  unfold GetArtifactSources.
  destruct (GetRepositoryManager env) as [e|]; [done|].
  destruct (GetGlobalRepository env) as [e|]; [done|].
  destruct (repository_Get env artifact) as [artifact_obj|]; [|done].
  by rewrite (append_sources Name).
Qed.

(** X5: [GetArtifactSources] returns the names of the artifact's sources in
    the order of the definition; an artifact that the repository does not
    know, or a global repository that cannot be had, gives the empty list;
    the answer is nil exactly when the repository manager cannot be had. *)
Theorem GetArtifactSources_names (env : Env) (artifact : string) :
  (GetArtifactSources env artifact = None <->
   is_Some (GetRepositoryManager env)) /\
  items (GetArtifactSources env artifact)
  = match GetRepositoryManager env, GetGlobalRepository env,
          repository_Get env artifact with
    | None, None, Some artifact_obj => Name <$> Sources artifact_obj
    | _, _, _ => []
    end.
Proof.
  split; [|apply GetArtifactSources_items].
  unfold GetArtifactSources.
  destruct (GetRepositoryManager env) as [e|]; [by split; eauto|].
  split; [|by intros [? ?]].
  destruct (GetGlobalRepository env) as [e|]; [done|].
  destruct (repository_Get env artifact) as [artifact_obj|]; [|done].
  by rewrite (append_sources Name).
Qed.

(** ** [FindCollectedArtifacts] *)

Lemma FindCollectedArtifacts_body_run (env : Env) (h : Hunt) (w : World) :
  run (FindCollectedArtifacts_body env) (h, w)
  = (returns tt,
     (match StartRequest h with
      | Some r =>
          match Artifacts r with
          | Some l =>
              if bool_decide (len (HuntArtifacts h) > 0) then h
              else backfilled env l h
          | None => h
          end
      | None => h
      end, w)).
Proof.
  unfold run, FindCollectedArtifacts_body, backfilled. go_unfold. cbn.
  destruct (StartRequest h) as [r|] eqn:Hr; cbn; [|done].
  destruct (Artifacts r) as [l|] eqn:Hl; cbn; [|done].
  case_bool_decide; cbn; [done|].
  rewrite Hr. cbn. rewrite collect_sources_run. cbn.
  by rewrite Hl, sources_of_source_paths.
Qed.

(** X6: [FindCollectedArtifacts] is safe on every input, the nil pointer
    included: it returns, leaves the world alone, touches no field of the
    record but [Artifacts] and [ArtifactSources], and leaves a record that
    already lists artifacts exactly as it is. *)
Theorem FindCollectedArtifacts_frame
  (env : Env) (hunt : option Hunt) (w : World) :
  let res := FindCollectedArtifacts env hunt w in
  fst res = returns tt /\
  snd (snd res) = w /\
  match hunt, fst (snd res) with
  | None, None => True
  | Some h, Some h' =>
      HuntId h' = HuntId h /\ HuntDescription h' = HuntDescription h /\
      State h' = State h /\ CreateTime h' = CreateTime h /\
      StartTime h' = StartTime h /\ Expires h' = Expires h /\
      StartRequest h' = StartRequest h /\ Stats h' = Stats h /\
      (len (HuntArtifacts h) > 0 -> h' = h)
  | _, _ => False
  end.
Proof.
  destruct hunt as [h|]; [|done]. unfold FindCollectedArtifacts.
  rewrite FindCollectedArtifacts_body_run. cbn.
  split; [done|]. split; [done|].
  destruct (StartRequest h) as [r|] eqn:Hr; [|by repeat split].
  destruct (Artifacts r) as [l|]; [|by repeat split].
  case_bool_decide; by repeat split.
Qed.

(** X7: the backfill.  A record without an artifact list whose start
    request names artifacts is given that list, and the source paths of
    these artifacts, in order. *)
Theorem FindCollectedArtifacts_backfills
  (env : Env) (h : Hunt) (w : World) (r : ArtifactCollectorArgs)
  (l : list string) :
  StartRequest h = Some r -> Artifacts r = Some l ->
  len (HuntArtifacts h) = 0 ->
  exists h',
    FindCollectedArtifacts env (Some h) w = (returns tt, (Some h', w)) /\
    HuntArtifacts h' = Some l /\
    ArtifactSources h'
    = Some (flat_map
              (fun artifact =>
                 path_Join env artifact
                   <$> items (GetArtifactSources env artifact)) l).
Proof.
  intros Hr Hl Hlen. exists (backfilled env l h).
  unfold FindCollectedArtifacts. rewrite FindCollectedArtifacts_body_run.
  rewrite Hr, Hl. rewrite bool_decide_eq_false_2 by lia. done.
Qed.

Lemma FindCollectedArtifacts_backfills_witness :
  let r := mkArtifactCollectorArgs (Some ["Generic.Client.Info"]) None in
  let h := set_StartRequest (Some r) (mirrored "H.1" 1 PAUSED false) in
  exists h',
    FindCollectedArtifacts demo_env (Some h) demo_world
    = (returns tt, (Some h', demo_world)) /\
    HuntArtifacts h' = Some ["Generic.Client.Info"] /\
    ArtifactSources h'
    = Some (flat_map
              (fun artifact =>
                 path_Join demo_env artifact
                   <$> items (GetArtifactSources demo_env artifact))
              ["Generic.Client.Info"]).
Proof.
  apply (FindCollectedArtifacts_backfills demo_env
           (set_StartRequest
              (Some (mkArtifactCollectorArgs
                       (Some ["Generic.Client.Info"]) None))
              (mirrored "H.1" 1 PAUSED false))
           demo_world
           (mkArtifactCollectorArgs (Some ["Generic.Client.Info"]) None)
           ["Generic.Client.Info"]); reflexivity.
Defined.

(** X8: [FindCollectedArtifacts] is idempotent: a second call changes
    nothing, the case of an empty artifact list (which the test of line 65
    lets through every time) included. *)
Theorem FindCollectedArtifacts_idempotent
  (env : Env) (hunt : option Hunt) (w : World) :
  let once := FindCollectedArtifacts env hunt w in
  FindCollectedArtifacts env (fst (snd once)) (snd (snd once)) = once.
Proof.
  destruct hunt as [h|]; [|done]. unfold FindCollectedArtifacts.
  rewrite FindCollectedArtifacts_body_run. cbn [fst snd].
  rewrite FindCollectedArtifacts_body_run.
  destruct (StartRequest h) as [r|] eqn:Hr; [|by rewrite Hr].
  destruct (Artifacts r) as [l|] eqn:Hl; [|by rewrite Hr, Hl].
  case_bool_decide as Hlen.
  - rewrite Hr, Hl. by rewrite bool_decide_eq_true_2.
  - replace (StartRequest (backfilled env l h)) with (Some r) by done.
    rewrite Hl. by case_bool_decide.
Qed.

(** ** The record that [CreateHunt] writes, and the backfill *)

Lemma CreateHunt_written_is_prepared
  (env : Env) (w : World) (hunt : Hunt) (path : string) (record : Hunt) :
  writes (snd (snd (run (CreateHunt env) (hunt, w))))
  = (path, record) :: writes w ->
  exists r l,
    ~ fails_before_write env w hunt /\
    StartRequest hunt = Some r /\ Artifacts r = Some l /\
    record = fst (prepared env r (hunt, w)) /\
    path = HuntPath env (HuntId record).
Proof.
  intros Hw.
  destruct (fails_before_write_dec env w hunt) as [Hfail|Hok].
  { destruct (CreateHunt_failure_run env w hunt Hfail) as [_ Hsame].
    rewrite Hsame in Hw. by apply not_cons_self in Hw. }
  destruct (start_request_of_success env w hunt Hok) as (r & l & Hr & Hl).
  rewrite (CreateHunt_run_prepared env hunt w r Hok Hr) in Hw.
  rewrite persisted_writes in Hw.
  pose proof (prepared_world env r hunt w) as (_ & _ & Hwr & _).
  cbv zeta in *. rewrite Hwr in Hw. injection Hw as <- <-.
  by exists r, l.
Qed.

Lemma source_paths_of_repository (env : Env) (l : list string) :
  GetRepositoryManager env = None -> GetGlobalRepository env = None ->
  source_paths env l
  = flat_map (fun artifact =>
                match repository_Get env artifact with
                | Some artifact_obj =>
                    (fun source => path_Join env artifact (Name source))
                      <$> Sources artifact_obj
                | None => []
                end) l.
Proof.
  intros Hm Hg. unfold source_paths. apply flat_map_ext. intros a.
  rewrite GetArtifactSources_items, Hm, Hg.
  destruct (repository_Get env a); [|done].
  by rewrite <- list_fmap_compose.
Qed.

(** X9: the record that [CreateHunt] writes lists, for each artifact of the
    request in order, the path of each source of its definition in the
    global repository, in the order of the definition; an artifact that
    the repository does not know adds nothing. *)
Theorem CreateHunt_written_sources
  (env : Env) (w : World) (hunt : Hunt) (path : string) (record : Hunt) :
  writes (snd (snd (run (CreateHunt env) (hunt, w))))
  = (path, record) :: writes w ->
  exists l,
    HuntArtifacts record = Some l /\
    ArtifactSources record
    = Some (flat_map
              (fun artifact =>
                 match repository_Get env artifact with
                 | Some artifact_obj =>
                     (fun source => path_Join env artifact (Name source))
                       <$> Sources artifact_obj
                 | None => []
                 end) l).
Proof.
  intros Hw.
  destruct (CreateHunt_written_is_prepared env w hunt path record Hw)
    as (r & l & Hok & Hr & Hl & -> & _).
  pose proof (prepared_record env r hunt w)
    as (_ & _ & _ & _ & _ & _ & _ & Hart & Hsrc & _).
  cbv zeta in *. exists l. rewrite Hart, Hsrc, Hl. split; [done|].
  simpl. rewrite sources_of_source_paths. simpl.
  rewrite source_paths_of_repository; [done| |].
  - destruct (GetRepositoryManager env) eqn:E; [|done].
    destruct Hok. by eapply no_repository_manager.
  - destruct (GetGlobalRepository env) eqn:E; [|done].
    destruct Hok. by eapply no_global_repository.
Qed.

Lemma CreateHunt_written_sources_witness :
  let request :=
    mkArtifactCollectorArgs (Some ["Generic.Client.Info"; "Windows.Sys.Users"])
      None in
  let hunt := new_hunt (Some request) in
  let record := fst (snd (run (CreateHunt demo_env) (hunt, demo_world))) in
  exists l,
    HuntArtifacts record = Some l /\
    ArtifactSources record
    = Some (flat_map
              (fun artifact =>
                 match repository_Get demo_env artifact with
                 | Some artifact_obj =>
                     (fun source => path_Join demo_env artifact (Name source))
                       <$> Sources artifact_obj
                 | None => []
                 end) l).
Proof.
  apply (CreateHunt_written_sources demo_env demo_world
           (new_hunt
              (Some (mkArtifactCollectorArgs
                       (Some ["Generic.Client.Info"; "Windows.Sys.Users"])
                       None)))
           (HuntPath demo_env "H.01abff10")).
  vm_compute. reflexivity.
Defined.

(** X10: the backfill agrees with [CreateHunt]: on a record that
    [CreateHunt] has written, [FindCollectedArtifacts] changes nothing. *)
Theorem FindCollectedArtifacts_keeps_written_record
  (env : Env) (w : World) (hunt : Hunt) (path : string) (record : Hunt) :
  writes (snd (snd (run (CreateHunt env) (hunt, w))))
  = (path, record) :: writes w ->
  forall w0,
    FindCollectedArtifacts env (Some record) w0
    = (returns tt, (Some record, w0)).
Proof.
  intros Hw w0.
  destruct (CreateHunt_written_is_prepared env w hunt path record Hw)
    as (r & l & Hok & Hr & Hl & Hrec & _).
  pose proof (prepared_record env r hunt w)
    as (_ & _ & _ & _ & _ & _ & Hreq & Hart & Hsrc & _).
  cbv zeta in *. rewrite <- Hrec in Hreq, Hart, Hsrc. clear Hrec.
  rewrite Hl in Hreq, Hart, Hsrc. simpl in Hsrc.
  rewrite sources_of_source_paths in Hsrc. simpl in Hsrc.
  unfold FindCollectedArtifacts. rewrite FindCollectedArtifacts_body_run.
  rewrite Hreq. simpl.
  case_bool_decide; [done|].
  unfold backfilled. destruct record; simpl in *. by subst.
Qed.

Lemma FindCollectedArtifacts_keeps_written_record_witness :
  let request := mkArtifactCollectorArgs (Some []) None in
  let hunt := new_hunt (Some request) in
  let res := run (CreateHunt demo_env) (hunt, demo_world) in
  let record := fst (snd res) in
  FindCollectedArtifacts demo_env (Some record) (snd (snd res))
  = (returns tt, (Some record, snd (snd res))).
Proof.
  refine (FindCollectedArtifacts_keeps_written_record demo_env demo_world
            (new_hunt (Some (mkArtifactCollectorArgs (Some []) None)))
            (HuntPath demo_env "H.01abff10") _ _ _).
  vm_compute. reflexivity.
Defined.

(** ** [ModifyHunt]: the mutator on every input *)

Section MutatorPaths.
Variables (env : Env) (hunt_modification : Hunt) (user : string).
Implicit Types (h : Hunt) (w : World) (s : HuntStats).

Local Abbreviation mutator := (ModifyHunt_mutator env hunt_modification user).

Lemma mutator_archive h w s :
  Stats h = Some s ->
  HuntDescription hunt_modification = EmptyString ->
  State hunt_modification = ARCHIVED ->
  run mutator (h, w)
  = match GetJournal env with
    | Some e =>
        (returns (Some e), (set_State ARCHIVED h, set_ticks (S (ticks w)) w))
    | None =>
        let row := archive_row env hunt_modification user h w in
        (returns (PushRowsToArtifact env [row]),
         (set_State ARCHIVED h,
          set_journal (journal w ++ [row]) (set_ticks (S (ticks w)) w)))
    end.
Proof.
  intros Hs Hd Hr. unfold run, ModifyHunt_mutator, archive_row.
  go_exec; done.
Qed.

Lemma mutator_stop h w s :
  Stats h = Some s ->
  HuntDescription hunt_modification = EmptyString ->
  State hunt_modification <> ARCHIVED ->
  State hunt_modification <> RUNNING ->
  run mutator (h, w) = (returns None, (set_State STOPPED h, w)).
Proof.
  intros Hs Hd Ha Hr. unfold run, ModifyHunt_mutator.
  go_exec; done.
Qed.

Lemma mutator_returns h w :
  exists err h' w', run mutator (h, w) = (returns err, (h', w')).
Proof.
  destruct (Stats h) as [s|] eqn:Hs;
    [|rewrite mutator_invalid_hunt by done; eauto].
  destruct (decide (HuntDescription hunt_modification = EmptyString)) as [Hd|Hd];
    [|erewrite mutator_description by done; eauto].
  destruct (decide (State hunt_modification = ARCHIVED)) as [Ha|Ha].
  { erewrite mutator_archive by done. destruct (GetJournal env); eauto. }
  destruct (decide (State hunt_modification = RUNNING)) as [Hr|Hr];
    [|erewrite mutator_stop by done; eauto].
  destruct (Stopped s) eqn:Hst.
  - erewrite mutator_start_stopped by done. eauto.
  - erewrite mutator_start by done. eauto.
Qed.
End MutatorPaths.

Lemma mutator_leaves_store
  (env : Env) (hunt_modification : Hunt) (user : string)
  (h : Hunt) (w : World) :
  let w' := snd (snd (run (ModifyHunt_mutator env hunt_modification user)
                        (h, w))) in
  dispatcher w' = dispatcher w /\ writes w' = writes w /\
  notifications w' = notifications w.
Proof.
  destruct (Stats h) as [s|] eqn:Hs;
    [|by rewrite mutator_invalid_hunt by done].
  destruct (decide (HuntDescription hunt_modification = EmptyString)) as [Hd|Hd];
    [|by erewrite mutator_description by done].
  destruct (decide (State hunt_modification = ARCHIVED)) as [Ha|Ha].
  { erewrite mutator_archive by done. by destruct (GetJournal env). }
  destruct (decide (State hunt_modification = RUNNING)) as [Hr|Hr];
    [|by erewrite mutator_stop by done].
  destruct (Stopped s) eqn:Hst.
  - by erewrite mutator_start_stopped by done.
  - by erewrite mutator_start by done.
Qed.

(** X11: whatever the request and the hunt, the mutator of [ModifyHunt]
    returns (the [Stats] it dereferences on line 340 were tested on line
    307), and it changes nothing of the hunt but its description, state
    and start time: identifier, creation time, expiry, start request,
    artifacts, sources and statistics stay.  Of the world it touches the
    clock and, for an archive request without a description only, the
    journal, by one row. *)
Theorem ModifyHunt_mutator_frame
  (env : Env) (hunt_modification : Hunt) (user : string)
  (h : Hunt) (w : World) :
  let res := run (ModifyHunt_mutator env hunt_modification user) (h, w) in
  let h' := fst (snd res) in
  let w' := snd (snd res) in
  fst res <> panics /\
  (HuntId h' = HuntId h /\ CreateTime h' = CreateTime h /\
   Expires h' = Expires h /\ StartRequest h' = StartRequest h /\
   HuntArtifacts h' = HuntArtifacts h /\
   ArtifactSources h' = ArtifactSources h /\ Stats h' = Stats h) /\
  (entropy w' = entropy w /\ dispatcher w' = dispatcher w /\
   writes w' = writes w /\ notifications w' = notifications w /\
   refreshes w' = refreshes w) /\
  (journal w' = journal w \/
   HuntDescription hunt_modification = EmptyString /\
   State hunt_modification = ARCHIVED /\
   exists row, journal w' = journal w ++ [row]).
Proof.
  destruct (Stats h) as [s|] eqn:Hs;
    [|rewrite mutator_invalid_hunt by done; simpl; by auto 10].
  destruct (decide (HuntDescription hunt_modification = EmptyString)) as [Hd|Hd];
    [|erewrite mutator_description by done; simpl; by auto 10].
  destruct (decide (State hunt_modification = ARCHIVED)) as [Ha|Ha].
  { erewrite mutator_archive by done.
    destruct (GetJournal env); simpl; [by auto 10|].
    repeat split; try done. right. eauto. }
  destruct (decide (State hunt_modification = RUNNING)) as [Hr|Hr];
    [|erewrite mutator_stop by done; simpl; by auto 10].
  destruct (Stopped s) eqn:Hst.
  - erewrite mutator_start_stopped by done. simpl. by auto 10.
  - erewrite mutator_start by done. simpl. by auto 10.
Qed.

(** ** [ModifyHunt]: the call as a whole *)

Lemma ModifyHunt_no_dispatcher (env : Env) (hunt_modification : Hunt)
  (user : string) (w : World) :
  dispatcher w = None ->
  run (ModifyHunt env hunt_modification user) w = (panics, w).
Proof.
  intros Hd. unfold run, ModifyHunt. go_unfold. cbn. by rewrite Hd.
Qed.

Lemma ModifyHunt_unknown_hunt (env : Env) (hunt_modification : Hunt)
  (user : string) (w : World) (d : HuntDispatcher) :
  dispatcher w = Some d ->
  hunts d !! HuntId hunt_modification = None ->
  run (ModifyHunt env hunt_modification user) w
  = (returns (Some (errors_New "Hunt not found")), w).
Proof.
  intros Hd Hh. unfold run, ModifyHunt, dispatcher_ModifyHunt.
  go_unfold. cbn. rewrite Hd. cbn. by rewrite Hh.
Qed.

(** X12: [ModifyHunt] panics exactly when the hunt dispatcher is not there:
    unlike [ListHunts] and [GetHunt], it calls the dispatcher without
    testing it for nil; with a dispatcher every request is answered. *)
Theorem ModifyHunt_panics_iff_no_dispatcher
  (env : Env) (hunt_modification : Hunt) (user : string) (w : World) :
  fst (run (ModifyHunt env hunt_modification user) w) = panics
  <-> dispatcher w = None.
Proof.
  split; [|by intros Hd; rewrite ModifyHunt_no_dispatcher].
  destruct (dispatcher w) as [d|] eqn:Hd; [|done].
  destruct (hunts d !! HuntId hunt_modification) as [h|] eqn:Hh;
    [|by erewrite ModifyHunt_unknown_hunt].
  destruct (mutator_returns env hunt_modification user h w)
    as ([e|] & h' & w' & Hm).
  - by erewrite ModifyHunt_rejected.
  - destruct (SetSubject env (HuntPath env (HuntId hunt_modification)) h')
      as [e|] eqn:Hstore.
    + by erewrite ModifyHunt_refused.
    + erewrite ModifyHunt_accepted by done. unfold notify_all.
      by destruct (GetNotifier env).
Qed.

(** X13: the mirror follows the store.  Every call of [ModifyHunt] ends in
    one of three ways.  It fails before the store is asked: store, mirror
    and clients are left alone.  Or the store refuses the record: the
    record has been handed to it, its error is returned, and the mirror
    and the clients are left alone.  Or the store accepts the record: the
    mirror holds that very record, and the answer is the one of the
    notification, the error of [NotifyByRegex] or "Notifier not ready"
    when there is no notifier, in which case the change stays committed
    all the same.  (The dispatcher is the one the specification
    describes.) *)
Theorem ModifyHunt_mirror_follows_store
  (env : Env) (hunt_modification : Hunt) (user : string) (w : World) :
  let res := run (ModifyHunt env hunt_modification user) w in
  let w' := snd res in
  let id := HuntId hunt_modification in
  (fst res <> returns None /\ writes w' = writes w /\
   dispatcher w' = dispatcher w /\ notifications w' = notifications w)
  \/
  (exists h' e,
     SetSubject env (HuntPath env id) h' = Some e /\
     fst res = returns (Some e) /\
     writes w' = (HuntPath env id, h') :: writes w /\
     dispatcher w' = dispatcher w /\ notifications w' = notifications w)
  \/
  (exists d h',
     dispatcher w = Some d /\ is_Some (hunts d !! id) /\
     SetSubject env (HuntPath env id) h' = None /\
     writes w' = (HuntPath env id, h') :: writes w /\
     dispatcher w' = Some (mkHuntDispatcher (<[id := h']> (hunts d))) /\
     fst res
     = returns (if GetNotifier env then NotifyByRegex env "^[Cc]\."
                else Some (errors_New "Notifier not ready")) /\
     notifications w'
     = if GetNotifier env then "^[Cc]\." :: notifications w
       else notifications w).
Proof.
  cbv zeta.
  destruct (dispatcher w) as [d|] eqn:Hd;
    [|rewrite ModifyHunt_no_dispatcher by done; left; simpl; by rewrite ?Hd].
  destruct (hunts d !! HuntId hunt_modification) as [h|] eqn:Hh;
    [|erewrite ModifyHunt_unknown_hunt by done; left; simpl; by rewrite ?Hd].
  pose proof (mutator_leaves_store env hunt_modification user h w)
    as Hframe.
  destruct (mutator_returns env hunt_modification user h w)
    as ([e|] & h' & w' & Hm).
  { left. erewrite ModifyHunt_rejected by done.
    rewrite Hm in Hframe. simpl in *.
    destruct Hframe as (Hdw & Hw & Hn).
    by rewrite Hdw, Hw, Hn, Hd. }
  rewrite Hm in Hframe. simpl in Hframe.
  destruct Hframe as (Hdw & Hw & Hn).
  destruct (SetSubject env (HuntPath env (HuntId hunt_modification)) h')
    as [e|] eqn:Hstore.
  - right. left. exists h', e. erewrite ModifyHunt_refused by done.
    simpl. by rewrite Hdw, Hw, Hn, Hd.
  - right. right. exists d, h'. erewrite ModifyHunt_accepted by done.
    unfold notify_all, committed.
    destruct (GetNotifier env); simpl; rewrite Hw, ?Hn, Hh; by eauto 10.
Qed.

(** X14: a request that carries a description edits the description and
    nothing else, whatever state it names: the hunt keeps its state and
    start time, no journal row is pushed and the clock is not read, also
    when the request says ARCHIVED or RUNNING.  The edited hunt is handed
    to the store; the mirror holds it when the store accepts it, and the
    hunt as it was when the store refuses it.  (The dispatcher is the one
    the specification describes.) *)
Theorem ModifyHunt_description_edit
  (env : Env) (hunt_modification : Hunt) (user : string)
  (w : World) (d : HuntDispatcher) (h : Hunt) :
  dispatcher w = Some d ->
  hunts d !! HuntId hunt_modification = Some h ->
  is_Some (Stats h) ->
  HuntDescription hunt_modification <> EmptyString ->
  let w' := snd (run (ModifyHunt env hunt_modification user) w) in
  let id := HuntId hunt_modification in
  let h' := set_HuntDescription (HuntDescription hunt_modification) h in
  writes w' = (HuntPath env id, h') :: writes w /\
  mirror_lookup w' id
  = Some (if is_nil (SetSubject env (HuntPath env id) h') then h' else h) /\
  State h' = State h /\ StartTime h' = StartTime h /\
  journal w' = journal w /\ ticks w' = ticks w.
Proof.
  intros Hd Hh [s Hs] Hdesc. cbv zeta.
  pose proof (mutator_description env hunt_modification user h w s Hs Hdesc)
    as Hm.
  destruct (SetSubject env (HuntPath env (HuntId hunt_modification))
              (set_HuntDescription (HuntDescription hunt_modification) h))
    as [e|] eqn:Hstore.
  - erewrite ModifyHunt_refused by done. simpl.
    unfold mirror_lookup. simpl. by rewrite Hd.
  - erewrite ModifyHunt_accepted by done.
    rewrite mirror_lookup_notify_all, mirror_lookup_committed.
    unfold notify_all, committed. by destruct (GetNotifier env).
Qed.

Lemma ModifyHunt_description_edit_witness :
  let h := mirrored "H.1" 1 RUNNING false in
  let w := with_mirror [h] demo_world in
  let request := modification "H.1" "Quarterly sweep" ARCHIVED in
  let w' := snd (run (ModifyHunt demo_env request "admin") w) in
  let h' := set_HuntDescription "Quarterly sweep" h in
  writes w' = (HuntPath demo_env "H.1", h') :: writes w /\
  mirror_lookup w' "H.1"
  = Some (if is_nil (SetSubject demo_env (HuntPath demo_env "H.1") h')
          then h' else h) /\
  State h' = State h /\ StartTime h' = StartTime h /\
  journal w' = journal w /\ ticks w' = ticks w.
Proof.
  apply (ModifyHunt_description_edit demo_env
           (modification "H.1" "Quarterly sweep" ARCHIVED) "admin"
           (with_mirror [mirrored "H.1" 1 RUNNING false] demo_world)
           (mkHuntDispatcher (mirror_of [mirrored "H.1" 1 RUNNING false]))
           (mirrored "H.1" 1 RUNNING false)).
  - reflexivity.
  - vm_compute. reflexivity.
  - eexists. reflexivity.
  - discriminate.
Defined.

(** X15: a hunt is archived only together with its journal row.  For an
    archive request without a description, either the mirror holds the
    hunt as ARCHIVED, the journal has been given one row, with that hunt,
    the user and the time of the call in whole seconds, which it
    accepted, and the store has accepted the archived hunt; or
    [ModifyHunt] returns an error and the mirror holds the hunt as it was.
    (The dispatcher is the one the specification describes.) *)
Theorem ModifyHunt_archive_needs_journal
  (env : Env) (hunt_modification : Hunt) (user : string)
  (w : World) (d : HuntDispatcher) (h : Hunt) :
  dispatcher w = Some d ->
  hunts d !! HuntId hunt_modification = Some h ->
  HuntDescription hunt_modification = EmptyString ->
  State hunt_modification = ARCHIVED ->
  let res := run (ModifyHunt env hunt_modification user) w in
  let w' := snd res in
  let id := HuntId hunt_modification in
  let row := archive_row env hunt_modification user h w in
  (mirror_lookup w' id = Some (set_State ARCHIVED h) /\
   journal w' = journal w ++ [row] /\
   row_Timestamp row = int64 (Now env (ticks w) `div` 1000000000) /\
   row_Hunt row = set_State ARCHIVED h /\ row_User row = user /\
   GetJournal env = None /\ PushRowsToArtifact env [row] = None /\
   SetSubject env (HuntPath env id) (set_State ARCHIVED h) = None /\
   writes w' = (HuntPath env id, set_State ARCHIVED h) :: writes w)
  \/
  ((exists e, fst res = returns (Some e)) /\
   mirror_lookup w' id = Some h /\
   notifications w' = notifications w).
Proof.
  intros Hd Hh Hdesc Harch. cbv zeta.
  assert (Hsame : mirror_lookup w (HuntId hunt_modification) = Some h).
  { unfold mirror_lookup. rewrite Hd. exact Hh. }
  destruct (Stats h) as [s|] eqn:Hs.
  2:{ right. erewrite ModifyHunt_rejected;
        [|done..|by apply mutator_invalid_hunt]. simpl. eauto. }
  pose proof (mutator_archive env hunt_modification user h w s Hs Hdesc Harch)
    as Hm.
  destruct (GetJournal env) as [e|] eqn:Hj.
  { right. erewrite ModifyHunt_rejected by done. simpl.
    split; [by eauto|]. split; [|done].
    unfold mirror_lookup in *. simpl. by rewrite Hd. }
  cbv zeta in Hm.
  destruct (PushRowsToArtifact env
              [archive_row env hunt_modification user h w]) as [e|] eqn:Hp.
  { right. erewrite ModifyHunt_rejected by done. simpl.
    split; [by eauto|]. split; [|done].
    unfold mirror_lookup in *. simpl. by rewrite Hd. }
  destruct (SetSubject env (HuntPath env (HuntId hunt_modification))
              (set_State ARCHIVED h)) as [e|] eqn:Hstore.
  { right. erewrite ModifyHunt_refused by done. simpl.
    split; [by eauto|]. split; [|done].
    unfold mirror_lookup in *. simpl. by rewrite Hd. }
  left. erewrite ModifyHunt_accepted by done.
  rewrite mirror_lookup_notify_all, mirror_lookup_committed.
  split; [done|].
  unfold notify_all, committed. by destruct (GetNotifier env).
Qed.

Lemma ModifyHunt_archive_needs_journal_witness :
  let h := mirrored "H.1" 1 STOPPED false in
  let w := with_mirror [h] demo_world in
  let request := desired "H.1" ARCHIVED in
  let res := run (ModifyHunt demo_env request "admin") w in
  let w' := snd res in
  let row := archive_row demo_env request "admin" h w in
  (mirror_lookup w' "H.1" = Some (set_State ARCHIVED h) /\
   journal w' = journal w ++ [row] /\
   row_Timestamp row = int64 (Now demo_env (ticks w) `div` 1000000000) /\
   row_Hunt row = set_State ARCHIVED h /\ row_User row = "admin" /\
   GetJournal demo_env = None /\ PushRowsToArtifact demo_env [row] = None /\
   SetSubject demo_env (HuntPath demo_env "H.1") (set_State ARCHIVED h)
   = None /\
   writes w'
   = (HuntPath demo_env "H.1", set_State ARCHIVED h) :: writes w)
  \/
  ((exists e, fst res = returns (Some e)) /\
   mirror_lookup w' "H.1" = Some h /\
   notifications w' = notifications w).
Proof.
  apply (ModifyHunt_archive_needs_journal demo_env
           (desired "H.1" ARCHIVED) "admin"
           (with_mirror [mirrored "H.1" 1 STOPPED false] demo_world)
           (mkHuntDispatcher (mirror_of [mirrored "H.1" 1 STOPPED false]))
           (mirrored "H.1" 1 STOPPED false)).
  - reflexivity.
  - vm_compute. reflexivity.
  - reflexivity.
  - reflexivity.
Defined.

(** ** [ListHunts]: every request *)

Lemma first_page_items (in_ : ListHuntsRequest) (order : list Hunt) :
  0 <= Count in_ ->
  let page :=
    sorted_by newer
      (take (Z.to_nat (Count in_)) (List.filter (listed in_) order)) in
  Z.of_nat (length page) <= Count in_ /\
  Sorted newest_first page /\
  Forall (fun hunt => hunt ∈ order /\ listed in_ hunt = true) page.
Proof.
  intros Hcount page. subst page. split; [|split].
  - rewrite sorted_by_Permutation, length_take. lia.
  - apply sorted_by_newest_first.
  - rewrite sorted_by_Permutation. apply Forall_forall. intros hunt Hin.
    apply (subseteq_take (Z.to_nat (Count in_))) in Hin.
    apply list_elem_of_In, filter_In in Hin as [Hin Hlisted].
    by apply list_elem_of_In in Hin.
Qed.

(** X16: with a dispatcher, [ListHunts] answers every request without an
    error (the stop sentinel never reaches the caller); the answer holds
    at most [Count] hunts, newest first, each one a hunt of the mirror that
    passes the test of line 230: no archived hunt unless the request asks
    for them. *)
Theorem ListHunts_page_bounds
  (env : Env) (in_ : ListHuntsRequest) (w : World) (d : HuntDispatcher) :
  dispatcher w = Some d ->
  0 <= Offset in_ -> 0 <= Count in_ < 2 ^ 64 ->
  exists result,
    ListHunts env in_ w = (Some result, None) /\
    len (Items result) <= Count in_ /\
    Sorted newest_first (items (Items result)) /\
    Forall (fun hunt =>
              hunt ∈ range_hunts env (hunts d) /\
              (IncludeArchived in_ = false -> State hunt <> ARCHIVED))
      (items (Items result)).
Proof.
  intros Hd Hoff Hcount.
  destruct (decide (Offset in_ = 0)) as [Hzero|Hpos].
  - destruct (ListHunts_first_page env in_ w d Hd Hzero Hcount)
      as (result & Hres & Hitems).
    exists result. split; [done|]. unfold len. rewrite Hitems.
    pose proof (first_page_items in_ (range_hunts env (hunts d))
                  (proj1 Hcount)) as (Hlen & Hsorted & Hall).
    split; [done|]. split; [done|].
    eapply Forall_impl; [exact Hall|]. intros hunt [Hin Hlisted].
    split; [done|]. intros Hno. unfold listed in Hlisted.
    rewrite Hno in Hlisted. simpl in Hlisted.
    by apply negb_true_iff, bool_decide_eq_false_1 in Hlisted.
  - exists (mkListHuntsResponse None).
    rewrite (ListHunts_positive_offset env in_ w d Hd) by lia.
    split; [done|]. simpl. split; [unfold len; simpl; lia|].
    split; constructor.
Qed.

Lemma ListHunts_page_bounds_witness :
  let in_ := mkListHuntsRequest 0 3 false in
  let w := with_mirror five_hunts demo_world in
  exists result,
    ListHunts demo_env in_ w = (Some result, None) /\
    len (Items result) <= 3 /\
    Sorted newest_first (items (Items result)) /\
    Forall (fun hunt =>
              hunt ∈ range_hunts demo_env (mirror_of five_hunts) /\
              (IncludeArchived in_ = false -> State hunt <> ARCHIVED))
      (items (Items result)).
Proof.
  apply (ListHunts_page_bounds demo_env (mkListHuntsRequest 0 3 false)
           (with_mirror five_hunts demo_world)
           (mkHuntDispatcher (mirror_of five_hunts))).
  - reflexivity.
  - simpl. lia.
  - simpl. lia.
Defined.

(** X17: nothing is lost from a first page that is large enough.  When the
    hunts that match the request number at most [Count], the answer of
    [ListHunts] at offset 0 is these hunts, all of them, newest first,
    whatever the order in which the mirror is iterated. *)
Theorem ListHunts_complete_first_page
  (env : Env) (in_ : ListHuntsRequest) (w : World) (d : HuntDispatcher) :
  dispatcher w = Some d ->
  Offset in_ = 0 -> Count in_ < 2 ^ 64 ->
  Z.of_nat (length (List.filter (listed in_) (range_hunts env (hunts d))))
    <= Count in_ ->
  exists result,
    ListHunts env in_ w = (Some result, None) /\
    items (Items result)
      ≡ₚ List.filter (listed in_) (range_hunts env (hunts d)) /\
    Sorted newest_first (items (Items result)).
Proof.
  intros Hd Hzero Hmax Hfits.
  destruct (ListHunts_first_page env in_ w d Hd Hzero ltac:(lia))
    as (result & Hres & Hitems).
  exists result. split; [done|]. rewrite Hitems. split.
  - rewrite sorted_by_Permutation, take_ge; [done|]. lia.
  - apply sorted_by_newest_first.
Qed.

Lemma ListHunts_complete_first_page_witness :
  let in_ := mkListHuntsRequest 0 10 false in
  let w := with_mirror five_hunts demo_world in
  exists result,
    ListHunts demo_env in_ w = (Some result, None) /\
    items (Items result)
      ≡ₚ List.filter (listed in_) (range_hunts demo_env (mirror_of five_hunts)) /\
    Sorted newest_first (items (Items result)).
Proof.
  apply (ListHunts_complete_first_page demo_env (mkListHuntsRequest 0 10 false)
           (with_mirror five_hunts demo_world)
           (mkHuntDispatcher (mirror_of five_hunts))).
  - reflexivity.
  - reflexivity.
  - simpl. lia.
  - vm_compute. discriminate.
Defined.

(** ** [GetHunt] *)

Arguments FindCollectedArtifacts : simpl never.
Arguments availableHuntDownloadFiles : simpl never.

Lemma GetHunt_no_dispatcher (env : Env) (dl : Downloads) (id : string)
  (w : World) :
  dispatcher w = None ->
  run (GetHunt env dl id) w
  = (returns (mkGetHuntResult None None
                (Some (errors_New "Hunt dispatcher not valid"))), w).
Proof.
  intros Hd. unfold run, GetHunt. go_unfold. cbn. by rewrite Hd.
Qed.

Lemma GetHunt_unknown_hunt (env : Env) (dl : Downloads) (id : string)
  (w : World) (d : HuntDispatcher) :
  dispatcher w = Some d -> hunts d !! id = None ->
  run (GetHunt env dl id) w
  = (returns (mkGetHuntResult None None
                (Some (errors_New "Hunt not found"))), w).
Proof.
  intros Hd Hh. unfold run, GetHunt, dispatcher_ModifyHunt_closure.
  go_unfold. cbn. rewrite Hd. cbn. by rewrite Hh.
Qed.

Lemma FindCollectedArtifacts_some (env : Env) (h : Hunt) (w : World) :
  exists h',
    FindCollectedArtifacts env (Some h) w = (returns tt, (Some h', w)) /\
    Stats h' = Stats h.
Proof.
  unfold FindCollectedArtifacts. rewrite FindCollectedArtifacts_body_run.
  eexists. split; [reflexivity|].
  destruct (StartRequest h) as [r|]; [|done].
  destruct (Artifacts r) as [l|]; [|done].
  by case_bool_decide.
Qed.

Lemma GetHunt_known_hunt (env : Env) (dl : Downloads) (id : string)
  (w : World) (d : HuntDispatcher) (h h' : Hunt) :
  dispatcher w = Some d -> hunts d !! id = Some h ->
  FindCollectedArtifacts env (Some (proto_Clone h)) w
  = (returns tt, (Some h', w)) ->
  run (GetHunt env dl id) w
  = (returns
       (if is_nil (Stats h')
        then mkGetHuntResult (Some h') None (Some (errors_New "Not found"))
        else mkGetHuntResult (Some h')
               (fst (availableHuntDownloadFiles dl id)) None), w).
Proof.
  intros Hd Hh Hfind.
  unfold run, GetHunt, dispatcher_ModifyHunt_closure, GetHunt_mutator.
  go_unfold. cbn. rewrite Hd. cbn. rewrite Hh. cbn.
  rewrite bool_decide_eq_true_2 by done. cbn.
  rewrite Hfind. cbn.
  destruct (Stats h'); cbn; [|done].
  by destruct (availableHuntDownloadFiles dl id).
Qed.

(** X18: [GetHunt] reads and never writes.  Although it goes through the
    dispatcher's [ModifyHunt], on every input it returns without a panic
    and leaves the mirror, the store, the journal and everything else as
    it was: its closure reports "not modified", and the backfill of
    [FindCollectedArtifacts] is done on the copy.  (The dispatcher is the
    one the specification describes.) *)
Theorem GetHunt_reads_only
  (env : Env) (dl : Downloads) (id : string) (w : World) :
  snd (run (GetHunt env dl id) w) = w /\
  fst (run (GetHunt env dl id) w) <> panics.
Proof.
  destruct (dispatcher w) as [d|] eqn:Hd;
    [|by rewrite GetHunt_no_dispatcher].
  destruct (hunts d !! id) as [h|] eqn:Hh;
    [|by erewrite GetHunt_unknown_hunt].
  destruct (FindCollectedArtifacts_some env (proto_Clone h) w)
    as (h' & Hfind & _).
  by erewrite GetHunt_known_hunt.
Qed.

(** X19: [GetHunt] answers without an error exactly for a hunt that the
    mirror holds with its [Stats]; in every other case (no dispatcher,
    unknown identifier, a hunt without [Stats]) it returns an error. *)
Theorem GetHunt_found_iff
  (env : Env) (dl : Downloads) (id : string) (w : World) :
  (exists res,
     fst (run (GetHunt env dl id) w) = returns res /\ got_err res = None)
  <-> (exists h, mirror_lookup w id = Some h /\ is_Some (Stats h)).
Proof.
  unfold mirror_lookup.
  destruct (dispatcher w) as [d|] eqn:Hd; simpl.
  2:{ rewrite GetHunt_no_dispatcher by done. simpl.
      split; [intros (res & [= <-] & ?); done | intros (? & ? & ?); done]. }
  destruct (hunts d !! id) as [h|] eqn:Hh.
  2:{ erewrite GetHunt_unknown_hunt by done. simpl.
      split; [intros (res & [= <-] & ?); done | intros (? & ? & ?); done]. }
  destruct (FindCollectedArtifacts_some env (proto_Clone h) w)
    as (h' & Hfind & Hstats).
  erewrite GetHunt_known_hunt by done. simpl. rewrite Hstats. simpl.
  destruct (Stats h) as [s|] eqn:Hs; simpl.
  - split; [|intros _; by eexists].
    intros _. exists h. by rewrite Hs.
  - split; [intros (res & [= <-] & ?); done|].
    intros (? & [= <-] & [? ?]). congruence.
Qed.

(** The copy of a record whose lists are nil or hold something is the
    record. *)
Lemma clone_slice_id {A} (s : slice A) :
  s <> Some [] -> clone_slice s = s.
Proof. by destruct s as [[|x l]|]. Qed.

(** X20: what [GetHunt] returns for a hunt of the mirror: the copy that
    [proto.Clone] makes of it (in which a list that was allocated and
    empty is nil), with the backfill of [FindCollectedArtifacts] applied
    to that copy; with it, for a hunt that has [Stats], the downloads that
    [getAvailableDownloadFiles] reports for the directory of the hunt's
    downloads file (an error of that lookup is dropped) and no error; for
    a hunt without [Stats], the error "Not found", beside a hunt that is
    not nil.  A record whose start request holds an allocated, empty
    artifact list comes back without the backfill. *)
Theorem GetHunt_found
  (env : Env) (dl : Downloads) (id : string) (w : World)
  (d : HuntDispatcher) (h : Hunt) :
  dispatcher w = Some d -> hunts d !! id = Some h ->
  exists h',
    FindCollectedArtifacts env (Some (proto_Clone h)) w
    = (returns tt, (Some h', w)) /\
    fst (run (GetHunt env dl id) w)
    = returns
        (match Stats h with
         | Some _ =>
             mkGetHuntResult (Some h')
               (fst (getAvailableDownloadFiles dl
                       (path_Dir dl (GetHuntDownloadsFile dl id))))
               None
         | None =>
             mkGetHuntResult (Some h') None (Some (errors_New "Not found"))
         end) /\
    ((exists r, StartRequest h = Some r /\ Artifacts r = Some []) ->
     h' = proto_Clone h).
Proof.
  intros Hd Hh.
  destruct (FindCollectedArtifacts_some env (proto_Clone h) w)
    as (h' & Hfind & Hstats).
  exists h'. split; [done|]. split.
  - erewrite GetHunt_known_hunt by done. rewrite Hstats. simpl.
    by destruct (Stats h).
  - intros (r & Hr & Hl).
    unfold FindCollectedArtifacts in Hfind.
    rewrite FindCollectedArtifacts_body_run in Hfind.
    simpl in Hfind. rewrite Hr in Hfind. simpl in Hfind.
    rewrite Hl in Hfind. simpl in Hfind. by injection Hfind as <-.
Qed.

Lemma GetHunt_found_witness :
  let h :=
    set_StartRequest
      (Some (mkArtifactCollectorArgs (Some ["Generic.Client.Info"]) None))
      (mirrored "H.1" 1 PAUSED false) in
  let w := with_mirror [h] demo_world in
  exists h',
    FindCollectedArtifacts demo_env (Some (proto_Clone h)) w
    = (returns tt, (Some h', w)) /\
    fst (run (GetHunt demo_env demo_downloads "H.1") w)
    = returns
        (match Stats h with
         | Some _ =>
             mkGetHuntResult (Some h')
               (fst (getAvailableDownloadFiles demo_downloads
                       (path_Dir demo_downloads
                          (GetHuntDownloadsFile demo_downloads "H.1"))))
               None
         | None =>
             mkGetHuntResult (Some h') None (Some (errors_New "Not found"))
         end) /\
    ((exists r, StartRequest h = Some r /\ Artifacts r = Some []) ->
     h' = proto_Clone h).
Proof.
  apply (GetHunt_found demo_env demo_downloads "H.1"
           (with_mirror
              [set_StartRequest
                 (Some (mkArtifactCollectorArgs
                          (Some ["Generic.Client.Info"]) None))
                 (mirrored "H.1" 1 PAUSED false)] demo_world)
           (mkHuntDispatcher
              (mirror_of
                 [set_StartRequest
                    (Some (mkArtifactCollectorArgs
                             (Some ["Generic.Client.Info"]) None))
                    (mirrored "H.1" 1 PAUSED false)]))).
  - reflexivity.
  - vm_compute. reflexivity.
Defined.

(** ** [ModifyHunt], then [GetHunt] *)

Lemma mutator_accepts_with_stats
  (env : Env) (hunt_modification : Hunt) (user : string)
  (h h' : Hunt) (w w' : World) :
  run (ModifyHunt_mutator env hunt_modification user) (h, w)
  = (returns None, (h', w')) ->
  is_Some (Stats h').
Proof.
  destruct (Stats h) as [s|] eqn:Hs;
    [|by rewrite mutator_invalid_hunt by done].
  destruct (decide (HuntDescription hunt_modification = EmptyString)) as [Hd|Hd].
  2:{ erewrite mutator_description by done. intros [= <- <-]. by eexists. }
  destruct (decide (State hunt_modification = ARCHIVED)) as [Ha|Ha].
  { erewrite mutator_archive by done.
    destruct (GetJournal env); [done|]. intros [= _ <- <-]. by eexists. }
  destruct (decide (State hunt_modification = RUNNING)) as [Hr|Hr].
  2:{ erewrite mutator_stop by done. intros [= <- <-]. by eexists. }
  destruct (Stopped s) eqn:Hst.
  - by erewrite mutator_start_stopped by done.
  - erewrite mutator_start by done. intros [= <- <-]. by eexists.
Qed.

Lemma dispatcher_notify_all_committed
  (env : Env) (d : HuntDispatcher) (id : string) (hunt : Hunt) (w : World) :
  dispatcher (snd (notify_all env (committed env d id hunt w)))
  = Some (mkHuntDispatcher (<[id := hunt]> (hunts d))).
Proof. unfold notify_all, committed. by destruct (GetNotifier env). Qed.

(** X21: [GetHunt] returns what [ModifyHunt] has stored.  When
    [ModifyHunt] has handed a record to the store and the store has
    accepted it, whatever the notification answered afterwards, a
    [GetHunt] for the same identifier that follows finds the hunt and
    returns the copy that [proto.Clone] makes of that record, after the
    backfill, without an error.  (The dispatcher is the one the
    specification describes.) *)
Theorem GetHunt_after_ModifyHunt
  (env : Env) (dl : Downloads) (hunt_modification : Hunt) (user : string)
  (w : World) (stored : Hunt) :
  let w' := snd (run (ModifyHunt env hunt_modification user) w) in
  let id := HuntId hunt_modification in
  writes w' = (HuntPath env id, stored) :: writes w ->
  SetSubject env (HuntPath env id) stored = None ->
  exists h',
    FindCollectedArtifacts env (Some (proto_Clone stored)) w'
    = (returns tt, (Some h', w')) /\
    run (GetHunt env dl id) w'
    = (returns (mkGetHuntResult (Some h')
                  (fst (availableHuntDownloadFiles dl id)) None), w').
Proof.
  cbv zeta.
  destruct (dispatcher w) as [d|] eqn:Hd.
  2:{ rewrite ModifyHunt_no_dispatcher by done. simpl.
      intros Hw. by apply not_cons_self in Hw. }
  destruct (hunts d !! HuntId hunt_modification) as [h|] eqn:Hh.
  2:{ erewrite ModifyHunt_unknown_hunt by done. simpl.
      intros Hw. by apply not_cons_self in Hw. }
  pose proof (mutator_leaves_store env hunt_modification user h w)
    as Hstore.
  destruct (mutator_returns env hunt_modification user h w)
    as ([e|] & copy & wm & Hm).
  { erewrite ModifyHunt_rejected by done. rewrite Hm in Hstore.
    simpl in *. destruct Hstore as (_ & -> & _).
    intros Hw. by apply not_cons_self in Hw. }
  rewrite Hm in Hstore. simpl in Hstore. destruct Hstore as (_ & Hwm & _).
  destruct (SetSubject env (HuntPath env (HuntId hunt_modification)) copy)
    as [e|] eqn:Hcopy.
  { erewrite ModifyHunt_refused by done. simpl. rewrite Hwm.
    intros [= <-] Hok. congruence. }
  destruct (mutator_accepts_with_stats _ _ _ _ _ _ _ Hm) as [s Hs].
  erewrite ModifyHunt_accepted by done.
  set (w' := snd (notify_all env
                    (committed env d (HuntId hunt_modification) copy wm))).
  intros Hw _.
  assert (stored = copy) as ->.
  { subst w'. unfold notify_all, committed in Hw.
    destruct (GetNotifier env); simpl in Hw; rewrite Hwm in Hw;
      by injection Hw. }
  destruct (FindCollectedArtifacts_some env (proto_Clone copy) w')
    as (h' & Hfind & Hstats).
  exists h'. split; [done|].
  erewrite (GetHunt_known_hunt env dl _ w'
              (mkHuntDispatcher
                 (<[HuntId hunt_modification := copy]> (hunts d))));
    [|by apply dispatcher_notify_all_committed
      |by apply lookup_insert_eq|exact Hfind].
  rewrite Hstats. simpl. by rewrite Hs.
Qed.

Lemma GetHunt_after_ModifyHunt_witness :
  let h := mirrored "H.1" 1 PAUSED false in
  let w := with_mirror [h] demo_world in
  let request := desired "H.1" RUNNING in
  let w' := snd (run (ModifyHunt demo_env request "admin") w) in
  let stored :=
    set_StartTime (uint64 (int64 (Now demo_env (ticks w)) ÷ 1000))
      (set_State RUNNING h) in
  exists h',
    FindCollectedArtifacts demo_env (Some (proto_Clone stored)) w'
    = (returns tt, (Some h', w')) /\
    run (GetHunt demo_env demo_downloads "H.1") w'
    = (returns (mkGetHuntResult (Some h')
                  (fst (availableHuntDownloadFiles demo_downloads "H.1"))
                  None), w').
Proof.
  apply (GetHunt_after_ModifyHunt demo_env demo_downloads
           (desired "H.1" RUNNING) "admin"
           (with_mirror [mirrored "H.1" 1 PAUSED false] demo_world)).
  - vm_compute. reflexivity.
  - reflexivity.
Defined.

(** ** [GetNewHuntId]: digits and entropy *)

Lemma hex_digits_in_table (v : byte) :
  In (hex_digit (N.shiftr (Byte.to_N v) 4)) hextable /\
  In (hex_digit (N.land (Byte.to_N v) 15)) hextable.
Proof. destruct v; vm_compute; tauto. Qed.

Lemma hex_encoded_in_table (src : list byte) :
  Forall (fun c => In c hextable) (hex_encoded src).
Proof.
  induction src as [|v src IH]; simpl; [constructor|].
  destruct (hex_digits_in_table v) as [Hhi Hlo].
  constructor; [exact Hhi|]. constructor; [exact Hlo|]. exact IH.
Qed.

(** X22: an identifier from [GetNewHuntId] is the prefix followed by exactly
    eight characters, each one of [0123456789abcdef], whatever the random
    source delivers, also when it delivers nothing. *)
Theorem GetNewHuntId_hex_digits (env : Env) (w : World) :
  exists digits,
    fst (GetNewHuntId env w)
    = HUNT_PREFIX env +:+ string_of_list_byte digits /\
    length digits = 8%nat /\
    Forall (fun c => In c (list_byte_of_string "0123456789abcdef")) digits.
Proof.
  exists (hex_encoded (fst (rand_Read (make 4) w))).
  split; [apply GetNewHuntId_fst|]. split.
  - rewrite length_hex_encoded, length_rand_Read. reflexivity.
  - apply hex_encoded_in_table.
Qed.

Lemma drop_repeat {A} (x : A) (n k : nat) :
  drop k (repeat x n) = repeat x (n - k).
Proof.
  revert k. induction n as [|n IH]; intros [|k]; simpl; done.
Qed.

Lemma take_repeat {A} (x : A) (n k : nat) :
  take k (repeat x n) = repeat x (k `min` n).
Proof.
  revert k. induction n as [|n IH]; intros [|k]; simpl; try done.
  by rewrite IH.
Qed.

Lemma rand_Read_padded (n : nat) (w : World) :
  fst (rand_Read (make n) w) = take n (entropy w ++ make n).
Proof.
  unfold rand_Read, make. simpl. rewrite repeat_length, length_take.
  rewrite drop_repeat.
  destruct (decide (n <= length (entropy w))%nat) as [Hle|Hgt].
  - rewrite take_app_le by lia.
    replace (n - n `min` length (entropy w))%nat with 0%nat by lia.
    apply app_nil_r.
  - rewrite (take_ge (entropy w)) by lia.
    rewrite take_app_ge by lia. rewrite take_repeat. do 2 f_equal. lia.
Qed.

(** X23: [GetNewHuntId] takes the next four bytes of the random source,
    and nothing else changes; the identifier encodes these bytes, with zero
    bytes in the place of those that the source could not deliver (the
    error of [rand.Read] is dropped on line 48). *)
Theorem GetNewHuntId_draws_four_bytes (env : Env) (w : World) :
  GetNewHuntId env w
  = (HUNT_PREFIX env
       +:+ string_of_list_byte
             (hex_encoded (take 4 (entropy w ++ [x00; x00; x00; x00]))),
     mkWorld (drop 4 (entropy w)) (ticks w) (dispatcher w) (writes w)
       (notifications w) (refreshes w) (journal w)).
Proof.
  rewrite GetNewHuntId_eq, rand_Read_padded. reflexivity.
Qed.

Lemma GetNewHuntId_without_entropy (env : Env) (w : World) :
  entropy w = [] ->
  GetNewHuntId env w = (HUNT_PREFIX env +:+ "00000000", w).
Proof.
  intros He. rewrite GetNewHuntId_eq, rand_Read_padded, He.
  destruct w; simpl in *. by subst.
Qed.

(** X24: when the random source delivers nothing, the hunts that
    [CreateHunt] names itself all get one identifier, the prefix followed
    by eight zeros: any two such records that are handed to the store
    carry that identifier and go to one and the same path. *)
Theorem CreateHunt_same_id_without_entropy
  (env : Env) (w1 w2 : World) (hunt1 hunt2 : Hunt)
  (path1 path2 : string) (record1 record2 : Hunt) :
  entropy w1 = [] -> entropy w2 = [] ->
  HuntId hunt1 = EmptyString -> HuntId hunt2 = EmptyString ->
  writes (snd (snd (run (CreateHunt env) (hunt1, w1))))
  = (path1, record1) :: writes w1 ->
  writes (snd (snd (run (CreateHunt env) (hunt2, w2))))
  = (path2, record2) :: writes w2 ->
  HuntId record1 = HUNT_PREFIX env +:+ "00000000" /\
  HuntId record2 = HUNT_PREFIX env +:+ "00000000" /\
  path1 = HuntPath env (HUNT_PREFIX env +:+ "00000000") /\
  path2 = path1.
Proof.
  intros He1 He2 Hid1 Hid2 Hw1 Hw2.
  assert (Hone : forall w hunt path record,
    entropy w = [] -> HuntId hunt = EmptyString ->
    writes (snd (snd (run (CreateHunt env) (hunt, w))))
    = (path, record) :: writes w ->
    HuntId record = HUNT_PREFIX env +:+ "00000000" /\
    path = HuntPath env (HUNT_PREFIX env +:+ "00000000")).
  { intros w hunt path record He Hid Hw.
    destruct (CreateHunt_written_is_prepared env w hunt path record Hw)
      as (r & l & Hok & Hr & Hl & Hrec & Hpath).
    pose proof (prepared_record env r hunt w) as (Hid' & _).
    cbv zeta in *. rewrite <- Hrec in Hid'.
    rewrite bool_decide_eq_true_2 in Hid' by done.
    rewrite GetNewHuntId_without_entropy in Hid' by done. simpl in Hid'.
    split; [done|]. by rewrite Hpath, Hid'. }
  destruct (Hone w1 hunt1 path1 record1 He1 Hid1 Hw1) as [Hr1 Hp1].
  destruct (Hone w2 hunt2 path2 record2 He2 Hid2 Hw2) as [Hr2 Hp2].
  repeat split; congruence.
Qed.

Lemma CreateHunt_same_id_without_entropy_witness :
  let w := set_entropy [] demo_world in
  let hunt1 :=
    new_hunt (Some (mkArtifactCollectorArgs
                      (Some ["Generic.Client.Info"]) None)) in
  let hunt2 :=
    new_hunt (Some (mkArtifactCollectorArgs
                      (Some ["Windows.Sys.Users"]) None)) in
  let record1 := fst (snd (run (CreateHunt demo_env) (hunt1, w))) in
  let record2 := fst (snd (run (CreateHunt demo_env) (hunt2, w))) in
  HuntId record1 = HUNT_PREFIX demo_env +:+ "00000000" /\
  HuntId record2 = HUNT_PREFIX demo_env +:+ "00000000" /\
  HuntPath demo_env "H.00000000"
  = HuntPath demo_env (HUNT_PREFIX demo_env +:+ "00000000") /\
  HuntPath demo_env "H.00000000" = HuntPath demo_env "H.00000000".
Proof.
  apply (CreateHunt_same_id_without_entropy demo_env
           (set_entropy [] demo_world) (set_entropy [] demo_world)
           (new_hunt (Some (mkArtifactCollectorArgs
                              (Some ["Generic.Client.Info"]) None)))
           (new_hunt (Some (mkArtifactCollectorArgs
                              (Some ["Windows.Sys.Users"]) None)))
           (HuntPath demo_env "H.00000000") (HuntPath demo_env "H.00000000")).
  - reflexivity.
  - reflexivity.
  - reflexivity.
  - reflexivity.
  - vm_compute. reflexivity.
  - vm_compute. reflexivity.
Defined.

(** X25: the caller's record and the stored record are one.  When
    [CreateHunt] has handed a record to the store, the hunt that the
    caller passed in reads exactly like that record after the call; and
    what the caller chose is kept in it: the identifier unless it was
    empty, the description, the state unless it was UNSET, and the
    statistics unless there were none. *)
Theorem CreateHunt_caller_sees_written_record
  (env : Env) (w : World) (hunt : Hunt) (path : string) (record : Hunt) :
  writes (snd (snd (run (CreateHunt env) (hunt, w))))
  = (path, record) :: writes w ->
  fst (snd (run (CreateHunt env) (hunt, w))) = record /\
  (HuntId hunt <> EmptyString -> HuntId record = HuntId hunt) /\
  HuntDescription record = HuntDescription hunt /\
  (State hunt <> UNSET -> State record = State hunt) /\
  (is_Some (Stats hunt) -> Stats record = Stats hunt).
Proof.
  intros Hw.
  destruct (CreateHunt_written_is_prepared env w hunt path record Hw)
    as (r & l & Hok & Hr & Hl & Hrec & _).
  pose proof (prepared_record env r hunt w)
    as (Hid & Hdesc & Hst & _ & _ & _ & _ & _ & _ & Hstats).
  cbv zeta in *. rewrite <- Hrec in Hid, Hdesc, Hst, Hstats.
  split.
  { rewrite (CreateHunt_run_prepared env hunt w r Hok Hr).
    by rewrite persisted_hunt. }
  split.
  { intros Hne. by rewrite Hid, bool_decide_eq_false_2. }
  split; [done|]. split.
  { intros Hne. rewrite Hst. by destruct (decide (State hunt = UNSET)). }
  intros [s Hs]. by rewrite Hstats, Hs.
Qed.

Lemma CreateHunt_caller_sees_written_record_witness :
  let request := mkArtifactCollectorArgs (Some ["Generic.Client.Info"]) None in
  let hunt :=
    set_HuntDescription "Quarterly sweep"
      (set_HuntId "H.cafe" (set_State STOPPED (new_hunt (Some request)))) in
  let res := run (CreateHunt demo_env) (hunt, demo_world) in
  let record := fst (snd res) in
  fst (snd res) = record /\
  (HuntId hunt <> EmptyString -> HuntId record = HuntId hunt) /\
  HuntDescription record = HuntDescription hunt /\
  (State hunt <> UNSET -> State record = State hunt) /\
  (is_Some (Stats hunt) -> Stats record = Stats hunt).
Proof.
  apply (CreateHunt_caller_sees_written_record demo_env demo_world
           (set_HuntDescription "Quarterly sweep"
              (set_HuntId "H.cafe"
                 (set_State STOPPED
                    (new_hunt (Some (mkArtifactCollectorArgs
                                       (Some ["Generic.Client.Info"]) None))))))
           (HuntPath demo_env "H.cafe")).
  vm_compute. reflexivity.
Defined.

(** * The WMI plugin *)

(** ** [WMIObject.Parse] *)

Lemma WMIObject_Parse_cached (P : Parser) (o : WMIObject P) (n : nat)
  (dict : Dict P) :
  parsed o = Some dict ->
  run (WMIObject_Parse P) (o, n) = ((Some dict, None), (o, n)).
Proof.
  intros Hp. unfold run, WMIObject_Parse. go_unfold. cbn. by rewrite Hp.
Qed.

Lemma WMIObject_Parse_fresh (P : Parser) (o : WMIObject P) (n : nat) :
  parsed o = None ->
  run (WMIObject_Parse P) (o, n)
  = match wmi_parse_Parse P n (Raw o) with
    | inr err => ((None, Some err), (o, S n))
    | inl mof =>
        ((ToDict P mof, None), (mkWMIObject (Raw o) (ToDict P mof), S n))
    end.
Proof.
  intros Hp. unfold run, WMIObject_Parse. go_unfold. cbn. rewrite Hp. cbn.
  by destruct (wmi_parse_Parse P n (Raw o)).
Qed.

(** X26: [Parse] caches its result.  Once a call has returned a dictionary,
    every later call on the object returns that dictionary without
    consulting the parser again, whatever the parser would answer by then,
    and leaves the object as it is. *)
Theorem WMIObject_Parse_caches (P : Parser) (o o' : WMIObject P)
  (n n' : nat) (dict : Dict P) :
  run (WMIObject_Parse P) (o, n) = ((Some dict, None), (o', n')) ->
  forall m,
    run (WMIObject_Parse P) (o', m) = ((Some dict, None), (o', m)).
Proof.
  intros Hrun m. apply WMIObject_Parse_cached.
  destruct (parsed o) as [d|] eqn:Hp.
  - rewrite (WMIObject_Parse_cached P o n d Hp) in Hrun.
    injection Hrun as <- <- _. exact Hp.
  - rewrite WMIObject_Parse_fresh in Hrun by done.
    destruct (wmi_parse_Parse P n (Raw o)) as [mof|err]; [|done].
    by injection Hrun as -> <- _.
Qed.

Lemma WMIObject_Parse_caches_witness :
  let raw := "instance of Win32_Process" in
  let dict : Dict demo_parser := [("Raw", raw)] in
  let o' : WMIObject demo_parser := mkWMIObject raw (Some dict) in
  run (WMIObject_Parse demo_parser) (o', 7%nat)
  = ((Some dict, None), (o', 7%nat)).
Proof.
  refine (WMIObject_Parse_caches demo_parser
            (mkWMIObject "instance of Win32_Process" None) _
            1 2 _ _ 7%nat).
  reflexivity.
Defined.

(** X27: [Parse] does not cache a failure.  A call that returns an error
    returns no dictionary, has asked the parser once, for the raw text of
    the object, and leaves the object as it was: the next call asks the
    parser again. *)
Theorem WMIObject_Parse_error_not_cached (P : Parser) (o o' : WMIObject P)
  (n n' : nat) (dict : option (Dict P)) (err : error) :
  run (WMIObject_Parse P) (o, n) = ((dict, Some err), (o', n')) ->
  dict = None /\ o' = o /\ n' = S n /\
  wmi_parse_Parse P n (Raw o) = inr err /\
  forall m,
    run (WMIObject_Parse P) (o', m)
    = match wmi_parse_Parse P m (Raw o) with
      | inr err' => ((None, Some err'), (o, S m))
      | inl mof =>
          ((ToDict P mof, None), (mkWMIObject (Raw o) (ToDict P mof), S m))
      end.
Proof.
  intros Hrun.
  destruct (parsed o) as [d|] eqn:Hp.
  { by rewrite (WMIObject_Parse_cached P o n d Hp) in Hrun. }
  rewrite WMIObject_Parse_fresh in Hrun by done.
  destruct (wmi_parse_Parse P n (Raw o)) as [mof|e] eqn:He; [done|].
  injection Hrun as <- <- <- <-. repeat split.
  intros m. by apply WMIObject_Parse_fresh.
Qed.

Lemma WMIObject_Parse_error_not_cached_witness :
  let o : WMIObject demo_parser :=
    mkWMIObject "instance of Win32_Process" None in
  @None (Dict demo_parser) = None /\ o = o /\ 1%nat = 1%nat /\
  wmi_parse_Parse demo_parser 0 (Raw o)
  = inr (errors_New "unexpected end of input") /\
  forall m,
    run (WMIObject_Parse demo_parser) (o, m)
    = match wmi_parse_Parse demo_parser m (Raw o) with
      | inr err' => ((None, Some err'), (o, S m))
      | inl mof =>
          ((ToDict demo_parser mof, None),
           (mkWMIObject (Raw o) (ToDict demo_parser mof), S m))
      end.
Proof.
  apply (WMIObject_Parse_error_not_cached demo_parser
           (mkWMIObject "instance of Win32_Process" None)
           (mkWMIObject "instance of Win32_Process" None)
           0 1 None (errors_New "unexpected end of input")).
  reflexivity.
Defined.

(** ** [eventQueryContext.ProcessEvent] *)

Lemma ProcessEvent_open {P : Parser} (event : string)
  (self : eventQueryContext P) :
  closed (output self) = false ->
  (length (buffer (output self)) <= capacity (output self))%nat ->
  eventQueryContext_ProcessEvent event self
  = (returns tt,
     mkeventQueryContext
       (mkchan
          (take (capacity (output self))
             (buffer (output self) ++ [mkWMIObject event None]))
          (capacity (output self)) false)
       (scope_log self)).
Proof.
  intros Hopen Hfits.
  unfold eventQueryContext_ProcessEvent, select_send_or_default.
  rewrite Hopen. case_bool_decide as Hroom.
  - rewrite take_ge; [done|]. rewrite length_app. simpl. lia.
  - rewrite take_app_le by lia. rewrite take_ge by lia.
    destruct self as [[b c cl] l]. simpl in *. by subst.
Qed.

(** X28: the queue of events is bounded and drops the newest.  On an open
    queue, the callbacks never panic and never wait; of the events that
    arrive while nobody reads, the queue keeps those that fit, in the
    order of arrival, each as an object that has not been parsed, and the
    events that arrive after it is full are dropped. *)
Theorem process_events_keeps_first {P : Parser} (events : list string)
  (self : eventQueryContext P) :
  closed (output self) = false ->
  (length (buffer (output self)) <= capacity (output self))%nat ->
  process_events events self
  = (returns tt,
     mkeventQueryContext
       (mkchan
          (take (capacity (output self))
             (buffer (output self)
                ++ ((fun event => mkWMIObject event None) <$> events)))
          (capacity (output self)) false)
       (scope_log self)).
Proof.
  revert self. induction events as [|event events IH]; intros self Hopen Hfits.
  - simpl. rewrite app_nil_r, take_ge by lia.
    destruct self as [[b c cl] l]. simpl in *. by subst.
  - simpl. rewrite ProcessEvent_open by done.
    rewrite IH; simpl; [|done|rewrite length_take; lia].
    do 3 f_equal.
    destruct (decide (length (buffer (output self)) < capacity (output self))%nat)
      as [Hroom|Hfull].
    + rewrite (take_ge (buffer (output self) ++ [_]))
        by (rewrite length_app; simpl; lia).
      by rewrite <- app_assoc.
    + rewrite (take_app_le (buffer (output self)) [_]) by lia.
      rewrite (take_ge (buffer (output self))) by lia.
      by rewrite !(take_app_le (buffer (output self))) by lia.
Qed.

Lemma process_events_keeps_first_witness :
  let events := ["__InstanceCreationEvent 1"; "__InstanceCreationEvent 2"] in
  process_events events (event_context demo_parser)
  = (returns tt,
     mkeventQueryContext
       (mkchan
          (take 100 ((fun event => mkWMIObject event None) <$> events))
          100 false)
       []).
Proof.
  apply (process_events_keeps_first
           ["__InstanceCreationEvent 1"; "__InstanceCreationEvent 2"]
           (event_context demo_parser)).
  - reflexivity.
  - simpl. lia.
Defined.
